(** * Live chat relay: connection registry, message router and storage

    A shallow embedding of the server of the live-chat application:
    the drizzle schema, the [DatabaseStorage] class, and the handlers
    registered by [registerRoutes] (the WebSocket [message] and [close]
    handlers and the REST endpoint [POST /api/help-requests]).

    Tables are lists of rows in insertion order, [serial] columns are
    counters, the connection registry [connections] is a JavaScript [Map]
    (an association list in insertion order with unique keys), and the
    handlers are written in a small state-and-exception monad whose state
    carries the registry, the database and the trace of observable effects
    (rows written, frames passed to [ws.send], errors logged).

    The handler of one event runs to completion on the state it starts
    from: events that arrive while it awaits the database are handled
    after it.  What a handler reads from outside the program (clocks,
    transport states, database failures) is given to it as an [Env]. *)

From Stdlib Require Import List String Ascii Bool NArith Arith Lia Permutation.
From Stdlib Require Import DecimalString DecimalN.
From Stdlib Require Import Sorted.
Import ListNotations.
Open Scope string_scope.

(** ** shared/schema.ts *)

(** A [timestamp] column is milliseconds since the epoch; the columns
    [timestamp], [joined_at] and [created_at] are nullable. *)
Definition Timestamp := N.

Record User := mkUser {
  user_id : N;
  user_username : string;
  user_isAdmin : bool;
  user_createdAt : option Timestamp
}.

Record Message := mkMessage {
  id : N;
  roomId : string;
  senderUsername : string;
  receiverUsername : string;
  message : string;
  timestamp : option Timestamp;
  isRead : bool
}.

Record OnlineUser := mkOnlineUser {
  ou_id : N;
  ou_username : string;
  ou_roomId : string;
  ou_socketId : string;
  ou_joinedAt : option Timestamp;
  ou_isAdmin : bool
}.

Record HelpRequest := mkHelpRequest {
  hr_id : N;
  hr_username : string;
  hr_roomId : string;
  hr_message : string;
  hr_status : string;
  hr_createdAt : option Timestamp
}.

Record InsertUser := mkInsertUser {
  iu_username : string;
  iu_isAdmin : bool
}.

Record InsertMessage := mkInsertMessage {
  im_roomId : string;
  im_senderUsername : string;
  im_receiverUsername : string;
  im_message : string
}.

Record InsertOnlineUser := mkInsertOnlineUser {
  io_username : string;
  io_roomId : string;
  io_socketId : string;
  io_isAdmin : bool
}.

Record InsertHelpRequest := mkInsertHelpRequest {
  ih_username : string;
  ih_roomId : string;
  ih_message : string;
  ih_status : option string
}.

(** [insertMessageSchema.parse]: the four picked columns are [text NOT NULL],
    so each must be present and a string; [None] is the thrown [ZodError]. *)
Definition insertMessageSchema_parse
  (roomId' : option string) (senderUsername' : option string)
  (receiverUsername' : option string) (message' : option string)
  : option InsertMessage :=
  match roomId', senderUsername', receiverUsername', message' with
  | Some r, Some s, Some t, Some b => Some (mkInsertMessage r s t b)
  | _, _, _, _ => None
  end.

(** [insertHelpRequestSchema.parse]: [status] has a default and is optional. *)
Definition insertHelpRequestSchema_parse
  (username' roomId' message' status' : option string)
  : option InsertHelpRequest :=
  match username', roomId', message' with
  | Some u, Some r, Some b => Some (mkInsertHelpRequest u r b status')
  | _, _, _ => None
  end.

(** ** The database *)

Record Db := mkDb {
  users : list User;
  messages : list Message;
  onlineUsers : list OnlineUser;
  helpRequests : list HelpRequest;
  users_seq : N;
  messages_seq : N;
  onlineUsers_seq : N;
  helpRequests_seq : N
}.

Definition emptyDb : Db := mkDb [] [] [] [] 1 1 1 1.

Definition with_messages (ms : list Message) (d : Db) : Db :=
  mkDb (users d) ms (onlineUsers d) (helpRequests d)
       (users_seq d) (messages_seq d) (onlineUsers_seq d) (helpRequests_seq d).

Definition with_onlineUsers (os : list OnlineUser) (d : Db) : Db :=
  mkDb (users d) (messages d) os (helpRequests d)
       (users_seq d) (messages_seq d) (onlineUsers_seq d) (helpRequests_seq d).

(** [ORDER BY timestamp ASC]: ascending, and PostgreSQL puts NULLs last.
    PostgreSQL leaves the order of rows with equal keys open; here they
    keep their table order.  The properties proved below only use that the
    result holds the same rows. *)
Definition timestamp_leb (a b : option Timestamp) : bool :=
  match a, b with
  | Some x, Some y => (x <=? y)%N
  | Some _, None => true
  | None, Some _ => false
  | None, None => true
  end.

Fixpoint insert_by_timestamp (m : Message) (l : list Message) : list Message :=
  match l with
  | [] => [m]
  | x :: r =>
      if timestamp_leb (timestamp x) (timestamp m)
      then x :: insert_by_timestamp m r
      else m :: x :: r
  end.

Definition orderBy_asc_timestamp (l : list Message) : list Message :=
  fold_left (fun acc m => insert_by_timestamp m acc) l [].

(** ** server/storage.ts: [DatabaseStorage]

    Each method is the statement it sends, as a function of the database
    and of the database clock [now] (for [DEFAULT now()]).  A statement
    that cannot be executed at all is an effect of the handler monad. *)

Definition getUserByUsername (username : string) (d : Db) : option User :=
  find (fun u => user_username u =? username) (users d).

(** [users.username] is [UNIQUE]: inserting a second row with the same
    username is rejected. *)
Definition createUser (now : Timestamp) (insertUser : InsertUser) (d : Db)
  : option (User * Db) :=
  match getUserByUsername (iu_username insertUser) d with
  | Some _ => None
  | None =>
      let user := mkUser (users_seq d) (iu_username insertUser)
                         (iu_isAdmin insertUser) (Some now) in
      Some (user,
            mkDb (users d ++ [user]) (messages d) (onlineUsers d) (helpRequests d)
                 (N.succ (users_seq d)) (messages_seq d) (onlineUsers_seq d)
                 (helpRequests_seq d))
  end.

Definition getMessagesByRoom (roomId' : string) (d : Db) : list Message :=
  orderBy_asc_timestamp
    (filter (fun m => roomId m =? roomId') (messages d)).

Definition getMessagesBetweenUsers (user1 user2 : string) (d : Db) : list Message :=
  orderBy_asc_timestamp
    (filter (fun m =>
       ((senderUsername m =? user1) && (receiverUsername m =? user2))
       || ((senderUsername m =? user2) && (receiverUsername m =? user1)))
       (messages d)).

Definition createMessage (now : Timestamp) (insertMessage : InsertMessage) (d : Db)
  : Message * Db :=
  let row := mkMessage (messages_seq d) (im_roomId insertMessage)
               (im_senderUsername insertMessage)
               (im_receiverUsername insertMessage)
               (im_message insertMessage) (Some now) false in
  (row,
   mkDb (users d) (messages d ++ [row]) (onlineUsers d) (helpRequests d)
        (users_seq d) (N.succ (messages_seq d)) (onlineUsers_seq d)
        (helpRequests_seq d)).

Definition set_isRead (m : Message) : Message :=
  mkMessage (id m) (roomId m) (senderUsername m) (receiverUsername m)
            (message m) (timestamp m) true.

Definition markMessagesAsRead (roomId' username : string) (d : Db) : Db :=
  with_messages
    (map (fun m =>
       if (roomId m =? roomId') && (receiverUsername m =? username)
       then set_isRead m else m) (messages d))
    d.

Definition getAllOnlineUsers (d : Db) : list OnlineUser := onlineUsers d.

Definition addOnlineUser (now : Timestamp) (insertOnlineUser : InsertOnlineUser)
  (d : Db) : OnlineUser * Db :=
  let row := mkOnlineUser (onlineUsers_seq d) (io_username insertOnlineUser)
               (io_roomId insertOnlineUser) (io_socketId insertOnlineUser)
               (Some now) (io_isAdmin insertOnlineUser) in
  (row,
   mkDb (users d) (messages d) (onlineUsers d ++ [row]) (helpRequests d)
        (users_seq d) (messages_seq d) (N.succ (onlineUsers_seq d))
        (helpRequests_seq d)).

Definition removeOnlineUser (socketId : string) (d : Db) : Db :=
  with_onlineUsers
    (filter (fun o => negb (ou_socketId o =? socketId)) (onlineUsers d)) d.

Definition createHelpRequest (now : Timestamp)
  (insertHelpRequest : InsertHelpRequest) (d : Db) : HelpRequest * Db :=
  let row := mkHelpRequest (helpRequests_seq d) (ih_username insertHelpRequest)
               (ih_roomId insertHelpRequest) (ih_message insertHelpRequest)
               (match ih_status insertHelpRequest with
                | Some s => s
                | None => "pending"
                end)
               (Some now) in
  (row,
   mkDb (users d) (messages d) (onlineUsers d) (helpRequests d ++ [row])
        (users_seq d) (messages_seq d) (onlineUsers_seq d)
        (N.succ (helpRequests_seq d))).

(** "Is user online": at least one presence row carries the username. *)
Definition isOnline (username : string) (d : Db) : bool :=
  existsb (fun o => ou_username o =? username) (onlineUsers d).

(** ** [getAllUsersWithMessages]

    The accumulator of the [reduce] is a plain JavaScript object used as a
    dictionary.  Its own properties are kept in creation order; reading
    [acc[username]] finds an own property first and otherwise a member
    inherited from [Object.prototype]. *)

Record Conversation := mkConversation {
  c_username : string;
  c_roomId : string;
  lastMessage : option Message;
  unreadCount : nat
}.

Definition JsObject (A : Type) := list (string * A).

Fixpoint own_get {A} (k : string) (o : JsObject A) : option A :=
  match o with
  | [] => None
  | (k', v) :: r => if k' =? k then Some v else own_get k r
  end.

Fixpoint own_set {A} (k : string) (v : A) (o : JsObject A) : JsObject A :=
  match o with
  | [] => [(k, v)]
  | (k', v') :: r => if k' =? k then (k', v) :: r else (k', v') :: own_set k v r
  end.

(** The property names every object literal inherits from a pristine
    [Object.prototype]; each is a function, or the prototype itself for
    ["__proto__"], hence truthy. *)
Definition Object_prototype_names : list string :=
  [ "constructor"; "hasOwnProperty"; "isPrototypeOf"; "propertyIsEnumerable";
    "toLocaleString"; "toString"; "valueOf"; "__proto__";
    "__defineGetter__"; "__defineSetter__"; "__lookupGetter__";
    "__lookupSetter__" ].

(** The reducer below can itself add a member to [Object.prototype]: a
    truthy [lastMessage].  [polluted] tells whether it is there. *)
Definition inherited (polluted : bool) (k : string) : bool :=
  existsb (String.eqb k) Object_prototype_names
  || (polluted && (k =? "lastMessage")).

Inductive Property (A : Type) : Type :=
| Own (v : A)
| Inherited
| Undefined.
Arguments Own {A} v.
Arguments Inherited {A}.
Arguments Undefined {A}.

Definition js_get {A} (polluted : bool) (k : string) (o : JsObject A)
  : Property A :=
  match own_get k o with
  | Some v => Own v
  | None => if inherited polluted k then Inherited else Undefined
  end.

(** [Date] comparison [a > b]. *)
Definition timestamp_gtb (a b : Timestamp) : bool := (b <? a)%N.

(** The test guarding [currentUser.lastMessage = msg]. *)
Definition more_recent (msg : Message) (last : option Message) : bool :=
  match last with
  | None => true
  | Some l =>
      match timestamp msg with
      | None => false
      | Some t =>
          match timestamp l with
          | None => true
          | Some tl => timestamp_gtb t tl
          end
      end
  end.

(** The non-admin party as the reducer determines it. *)
Definition party (msg : Message) : string :=
  if senderUsername msg =? "admin" then receiverUsername msg
  else senderUsername msg.

Definition counts_unread (username : string) (msg : Message) : bool :=
  (senderUsername msg =? username) && (receiverUsername msg =? "admin")
  && negb (isRead msg).

Definition update_conversation (username : string) (msg : Message)
  (currentUser : Conversation) : Conversation :=
  let c1 :=
    if more_recent msg (lastMessage currentUser)
    then mkConversation (c_username currentUser) (c_roomId currentUser)
                        (Some msg) (unreadCount currentUser)
    else currentUser in
  if counts_unread username msg
  then mkConversation (c_username c1) (c_roomId c1) (lastMessage c1)
                      (S (unreadCount c1))
  else c1.

(** The state of the reduction: the own properties of [acc], and whether
    [Object.prototype] has a truthy [lastMessage]. *)
Record Reduction := mkReduction {
  own : JsObject Conversation;
  polluted : bool
}.

(** One step of the reducer.  When [acc[username]] is inherited it is
    truthy, so no own property is created and [currentUser] is the
    inherited member: the two assignments write to that member and the
    own properties of [acc] stay as they are.  For the name ["__proto__"]
    that member is [Object.prototype] itself, which is left with a truthy
    [lastMessage] (and an [unreadCount] that is [NaN], hence falsy). *)
Definition group_step (st : Reduction) (msg : Message) : Reduction :=
  let username := party msg in
  let acc1 :=
    match js_get (polluted st) username (own st) with
    | Undefined =>
        own_set username (mkConversation username (roomId msg) None 0) (own st)
    | _ => own st
    end in
  match js_get (polluted st) username acc1 with
  | Own currentUser =>
      mkReduction
        (own_set username (update_conversation username msg currentUser) acc1)
        (polluted st)
  | Inherited =>
      mkReduction acc1 (polluted st || (username =? "__proto__"))
  | Undefined => mkReduction acc1 (polluted st)
  end.

(** [Object.values]: own properties whose name is an array index (the
    canonical decimal form of an integer below 2^32 - 1) come first, in
    ascending numeric order, then the others in creation order. *)
Definition string_of_N (n : N) : string :=
  NilEmpty.string_of_uint (N.to_uint n).

Definition array_index (k : string) : option N :=
  match NilEmpty.uint_of_string k with
  | Some d =>
      let n := N.of_uint d in
      if (string_of_N n =? k) && (n <? 4294967295)%N then Some n else None
  | None => None
  end.

Definition is_array_index (k : string) : bool :=
  match array_index k with Some _ => true | None => false end.

Definition index_leb (a b : string) : bool :=
  match array_index a, array_index b with
  | Some x, Some y => (x <=? y)%N
  | _, _ => true
  end.

Fixpoint insert_by_index {A} (p : string * A) (l : JsObject A) : JsObject A :=
  match l with
  | [] => [p]
  | q :: r =>
      if index_leb (fst q) (fst p) then q :: insert_by_index p r
      else p :: q :: r
  end.

Definition own_keys_order {A} (o : JsObject A) : JsObject A :=
  (fold_left (fun acc p => insert_by_index p acc)
             (filter (fun p => is_array_index (fst p)) o) []
   ++ filter (fun p => negb (is_array_index (fst p))) o)%list.

Definition Object_values {A} (o : JsObject A) : list A :=
  map snd (own_keys_order o).

Definition admin_messages (d : Db) : list Message :=
  orderBy_asc_timestamp
    (filter (fun m => (receiverUsername m =? "admin") || (senderUsername m =? "admin"))
            (messages d)).

Definition grouped (polluted0 : bool) (allMessages : list Message) : Reduction :=
  fold_left group_step allMessages (mkReduction [] polluted0).

(** [polluted0]: whether [Object.prototype] has a truthy [lastMessage]
    when the method is called. *)
Definition getAllUsersWithMessages (polluted0 : bool) (d : Db)
  : list Conversation :=
  Object_values (own (grouped polluted0 (admin_messages d))).

(** ** server/routes.ts: the registry and the handler monad *)

(** A [WebSocket] object is known by its identity. *)
Definition WebSocket := nat.

Inductive ReadyState := CONNECTING | OPEN | CLOSING | CLOSED.

Definition is_OPEN (r : ReadyState) : bool :=
  match r with OPEN => true | _ => false end.

Record ConnectionInfo := mkInfo {
  username : string;
  isAdmin : bool;
  info_roomId : string
}.

(** [Map<WebSocket, ConnectionInfo>]: entries in insertion order; [set] on a
    key already present replaces the value in place. *)
Definition JsMap := list (WebSocket * ConnectionInfo).

Fixpoint Map_get (ws : WebSocket) (m : JsMap) : option ConnectionInfo :=
  match m with
  | [] => None
  | (k, v) :: r => if Nat.eqb k ws then Some v else Map_get ws r
  end.

Fixpoint Map_set (ws : WebSocket) (v : ConnectionInfo) (m : JsMap) : JsMap :=
  match m with
  | [] => [(ws, v)]
  | (k, v') :: r =>
      if Nat.eqb k ws then (k, v) :: r else (k, v') :: Map_set ws v r
  end.

Definition Map_delete (ws : WebSocket) (m : JsMap) : JsMap :=
  filter (fun p => negb (Nat.eqb (fst p) ws)) m.

(** The frames the server writes, [{ type, data }]. *)
Inductive Frame :=
| adminJoined (usersWithMessages : list Conversation) (onlineUsers' : list OnlineUser)
| userJoined (messages' : list Message) (roomId' : string)
| newUser (username' roomId' : string) (isOnline' : bool)
| message_frame (data : Message)
| typing_frame (username' : string) (isTyping : bool) (roomId' : option string)
| userLeft (username' roomId' : string)
| helpRequest_frame (data : HelpRequest).

(** What a handler does that can be seen from outside, in order. *)
Inductive Effect :=
| Stored (m : Message)
| StoredHelpRequest (h : HelpRequest)
| Send (ws : WebSocket) (f : Frame)
| ConsoleError.

(** What the handler of one event reads from its surroundings: the clock
    of the process, the clock of the database, the state of every
    transport, which of the statements it issues (counted from 0) the
    database fails to execute, and whether [Object.prototype] has a
    truthy [lastMessage]. *)
Record Env := mkEnv {
  Date_now : N;
  db_now : Timestamp;
  readyState : WebSocket -> ReadyState;
  db_fails : nat -> bool;
  Object_prototype_lastMessage : bool
}.

Record Server := mkServer {
  connections : JsMap;
  db : Db
}.

Record Run := mkRun {
  server : Server;
  trace : list Effect;
  statements : nat
}.

Inductive Outcome (A : Type) : Type :=
| Returned (a : A)
| Thrown.
Arguments Returned {A} a.
Arguments Thrown {A}.

Definition Handler (A : Type) : Type := Env -> Run -> Outcome A * Run.

Definition ret {A} (a : A) : Handler A := fun _ s => (Returned a, s).

Definition throw {A} : Handler A := fun _ s => (Thrown, s).

Definition bind {A B} (m : Handler A) (k : A -> Handler B) : Handler B :=
  fun e s =>
    match m e s with
    | (Returned a, s') => k a e s'
    | (Thrown, s') => (Thrown, s')
    end.

Declare Scope handler_scope.
Delimit Scope handler_scope with handler.
Notation "x <- m ;; k" := (bind m (fun x => k))
  (at level 61, m at next level, right associativity) : handler_scope.
Notation "m ;; k" := (bind m (fun _ => k))
  (at level 61, right associativity) : handler_scope.
Open Scope handler_scope.

Definition ask : Handler Env := fun e s => (Returned e, s).

Definition get_connections : Handler JsMap :=
  fun _ s => (Returned (connections (server s)), s).

Definition put_connections (m : JsMap) : Handler unit :=
  fun _ s =>
    (Returned tt, mkRun (mkServer m (db (server s))) (trace s) (statements s)).

Definition emit (x : Effect) : Handler unit :=
  fun _ s => (Returned tt, mkRun (server s) (trace s ++ [x]) (statements s)).

(** [await storage.f(...)]: the statement is counted; it throws when the
    database fails to execute it or rejects it. *)
Definition await {A} (f : Timestamp -> Db -> option (A * Db)) : Handler A :=
  fun e s =>
    let s' := mkRun (server s) (trace s) (S (statements s)) in
    if db_fails e (statements s) then (Thrown, s')
    else
      match f (db_now e) (db (server s)) with
      | Some (a, d') =>
          (Returned a,
           mkRun (mkServer (connections (server s)) d') (trace s)
                 (S (statements s)))
      | None => (Thrown, s')
      end.

Definition query {A} (f : Db -> A) : Handler A :=
  await (fun _ d => Some (f d, d)).

Definition update (f : Db -> Db) : Handler unit :=
  await (fun _ d => Some (tt, f d)).

Definition insert {A} (f : Timestamp -> Db -> A * Db) : Handler A :=
  await (fun now d => Some (f now d)).

(** [ws.send(JSON.stringify(frame))]. *)
Definition ws_send (ws : WebSocket) (f : Frame) : Handler unit :=
  emit (Send ws f).

Fixpoint forEach (m : JsMap) (f : ConnectionInfo -> WebSocket -> Handler unit)
  : Handler unit :=
  match m with
  | [] => ret tt
  | (ws, info) :: r => f info ws ;; forEach r f
  end.

(** The loop every notification uses:
    [connections.forEach((info, ws) => { if (test(info) && ws.readyState === WebSocket.OPEN) ws.send(frame) })]. *)
Definition broadcast (test : ConnectionInfo -> bool) (f : Frame) : Handler unit :=
  e <- ask ;;
  m <- get_connections ;;
  forEach m (fun targetInfo targetWs =>
    if test targetInfo && is_OPEN (readyState e targetWs)
    then ws_send targetWs f
    else ret tt).

(** [a === b] where [b] may be [undefined]. *)
Definition eq_field (a : string) (b : option string) : bool :=
  match b with
  | Some b' => a =? b'
  | None => false
  end.

Definition catch {A} (h k : Handler A) : Handler A :=
  fun e s =>
    match h e s with
    | (Thrown, s') => k e s'
    | r => r
    end.

(** [schema.parse(x)] throws on a schema violation. *)
Definition parsed {A} (x : option A) : Handler A :=
  match x with
  | Some a => ret a
  | None => throw
  end.

(** The template literal [`${username}-${Date.now()}`]. *)
Definition socketId_of (username' : string) (now : N) : string :=
  username' ++ "-" ++ string_of_N now.

Definition storage_createMessage (v : InsertMessage) : Handler Message :=
  row <- insert (fun now => createMessage now v) ;;
  emit (Stored row) ;;
  ret row.

Definition storage_createHelpRequest (v : InsertHelpRequest) : Handler HelpRequest :=
  row <- insert (fun now => createHelpRequest now v) ;;
  emit (StoredHelpRequest row) ;;
  ret row.

(** ** The events a connection delivers: [{ type, data }] after [JSON.parse] *)

Record MessageData := mkMessageData {
  md_roomId : option string;
  md_targetUsername : option string;
  md_message : option string
}.

Record TypingData := mkTypingData {
  td_targetUsername : option string;
  td_isTyping : bool
}.

(** In [join], an [isAdmin] that is absent or falsy is [false].  A frame
    that is not JSON is [malformed]; one whose [type] is none of the four
    is [unknown_type]. *)
Inductive Inbound :=
| join (username' : string) (isAdmin' : bool) (roomId' : string)
| message_event (messageData : MessageData)
| typing_event (typingData : TypingData)
| markAsRead (roomId' : string)
| unknown_type
| malformed.

(** [case 'join'] *)
Definition case_join (ws : WebSocket) (username' : string) (isAdmin' : bool)
  (roomId' : string) : Handler unit :=
  m <- get_connections ;;
  put_connections (Map_set ws (mkInfo username' isAdmin' roomId') m) ;;
  user <- query (getUserByUsername username') ;;
  match user with
  | None =>
      await (fun now d => createUser now (mkInsertUser username' (isAdmin' || false)) d) ;;
      ret tt
  | Some _ => ret tt
  end ;;
  e <- ask ;;
  let socketId := socketId_of username' (Date_now e) in
  insert (fun now =>
    addOnlineUser now (mkInsertOnlineUser username' roomId' socketId (isAdmin' || false))) ;;
  if isAdmin' then
    usersWithMessages <-
      query (getAllUsersWithMessages (Object_prototype_lastMessage e)) ;;
    allOnlineUsers <- query getAllOnlineUsers ;;
    ws_send ws (adminJoined usersWithMessages allOnlineUsers)
  else
    messages' <- query (getMessagesBetweenUsers username' "admin") ;;
    ws_send ws (userJoined messages' roomId') ;;
    broadcast isAdmin (newUser username' roomId' true).

(** The two tests of the [message] fan-out. *)
Definition admin_message_test (connectionInfo : ConnectionInfo)
  (messageData : MessageData) (targetInfo : ConnectionInfo) : bool :=
  eq_field (username targetInfo) (md_targetUsername messageData)
  || (isAdmin targetInfo && (username targetInfo =? username connectionInfo)).

Definition user_message_test (connectionInfo : ConnectionInfo)
  (targetInfo : ConnectionInfo) : bool :=
  isAdmin targetInfo || (username targetInfo =? username connectionInfo).

(** [case 'message'] *)
Definition case_message (ws : WebSocket) (messageData : MessageData)
  : Handler unit :=
  m <- get_connections ;;
  match Map_get ws m with
  | None => ret tt
  | Some connectionInfo =>
      validatedMessage <-
        parsed (insertMessageSchema_parse
                  (md_roomId messageData)
                  (Some (username connectionInfo))
                  (if isAdmin connectionInfo
                   then md_targetUsername messageData
                   else Some "admin")
                  (md_message messageData)) ;;
      message' <- storage_createMessage validatedMessage ;;
      if isAdmin connectionInfo
      then broadcast (admin_message_test connectionInfo messageData)
                     (message_frame message')
      else broadcast (user_message_test connectionInfo)
                     (message_frame message')
  end.

(** [case 'typing'] *)
Definition case_typing (ws : WebSocket) (typingData : TypingData)
  : Handler unit :=
  m <- get_connections ;;
  match Map_get ws m with
  | None => ret tt
  | Some typingConnectionInfo =>
      if isAdmin typingConnectionInfo
      then broadcast
             (fun targetInfo =>
                eq_field (username targetInfo) (td_targetUsername typingData))
             (typing_frame (username typingConnectionInfo)
                           (td_isTyping typingData) None)
      else broadcast isAdmin
             (typing_frame (username typingConnectionInfo)
                           (td_isTyping typingData)
                           (Some (info_roomId typingConnectionInfo)))
  end.

(** [case 'markAsRead'] *)
Definition case_markAsRead (ws : WebSocket) (roomId' : string) : Handler unit :=
  m <- get_connections ;;
  match Map_get ws m with
  | Some readerInfo => update (markMessagesAsRead roomId' (username readerInfo))
  | None => ret tt
  end.

(** [ws.on('message', ...)]: the [switch] inside [try], and the [catch]
    that only logs. *)
Definition on_message (ws : WebSocket) (ev : Inbound) : Handler unit :=
  catch
    (match ev with
     | join username' isAdmin' roomId' => case_join ws username' isAdmin' roomId'
     | message_event messageData => case_message ws messageData
     | typing_event typingData => case_typing ws typingData
     | markAsRead roomId' => case_markAsRead ws roomId'
     | unknown_type => ret tt
     | malformed => throw
     end)
    (emit ConsoleError).

(** [ws.on('close', ...)] *)
Definition on_close (ws : WebSocket) : Handler unit :=
  m <- get_connections ;;
  match Map_get ws m with
  | Some connectionInfo =>
      e <- ask ;;
      update (removeOnlineUser (socketId_of (username connectionInfo) (Date_now e))) ;;
      (if negb (isAdmin connectionInfo)
       then broadcast isAdmin
              (userLeft (username connectionInfo) (info_roomId connectionInfo))
       else ret tt) ;;
      m' <- get_connections ;;
      put_connections (Map_delete ws m')
  | None => ret tt
  end.

(** [app.post('/api/help-requests', ...)] *)
Record HelpRequestBody := mkBody {
  body_username : option string;
  body_roomId : option string;
  body_message : option string;
  body_status : option string
}.

Inductive Response :=
| res_json (h : HelpRequest)
| res_status_400.

Definition post_help_requests (body : HelpRequestBody) : Handler Response :=
  catch
    (validatedRequest <-
       parsed (insertHelpRequestSchema_parse (body_username body)
                 (body_roomId body) (body_message body) (body_status body)) ;;
     helpRequest <- storage_createHelpRequest validatedRequest ;;
     broadcast isAdmin (helpRequest_frame helpRequest) ;;
     ret (res_json helpRequest))
    (ret res_status_400).

(** Running the handler of one event on a server. *)
Definition handle {A} (h : Handler A) (e : Env) (srv : Server)
  : Outcome A * Server * list Effect :=
  let '(r, s) := h e (mkRun srv [] 0) in (r, server s, trace s).

Definition outcome_of {A} (x : Outcome A * Server * list Effect) : Outcome A :=
  fst (fst x).
Definition server_of {A} (x : Outcome A * Server * list Effect) : Server :=
  snd (fst x).
Definition effects_of {A} (x : Outcome A * Server * list Effect) : list Effect :=
  snd x.

(** The frames a connection is sent in a trace. *)
Definition received (ws : WebSocket) (t : list Effect) : list Frame :=
  flat_map (fun x =>
    match x with
    | Send ws' f => if Nat.eqb ws' ws then [f] else []
    | _ => []
    end) t.

(** ** Vocabulary of the statements *)

Definition keys (m : JsMap) : list WebSocket := map fst m.

Definition recipients (test : ConnectionInfo -> bool) (e : Env) (m : JsMap)
  : JsMap :=
  filter (fun p => test (snd p) && is_OPEN (readyState e (fst p))) m.

Definition sends (f : Frame) (m : JsMap) : list Effect :=
  map (fun p => Send (fst p) f) m.

(** The fan-out set in the words of the specification. *)
Definition in_fanout_set (sender : ConnectionInfo)
  (targetUsername : option string) (c : ConnectionInfo) : Prop :=
  if isAdmin sender
  then Some (username c) = targetUsername
       \/ (isAdmin c = true /\ username c = username sender)
  else isAdmin c = true \/ username c = username sender.

Definition message_test (sender : ConnectionInfo) (messageData : MessageData)
  : ConnectionInfo -> bool :=
  if isAdmin sender then admin_message_test sender messageData
  else user_message_test sender.

(** ** Fixtures for the worked scenarios *)

Definition all_open : WebSocket -> ReadyState := fun _ => OPEN.

Definition db_up : nat -> bool := fun _ => false.

Definition env_at (now : N) : Env := mkEnv now now all_open db_up false.

Definition emptyServer : Server := mkServer [] emptyDb.

Definition alice_info : ConnectionInfo := mkInfo "alice" false "alice".

Definition admin_info : ConnectionInfo := mkInfo "admin" true "admin".

(** Alice on connection 0, the admin on connection 1, nothing stored. *)
Definition alice_and_admin : Server :=
  mkServer [(0, alice_info); (1, admin_info)] emptyDb.

Definition hello : MessageData :=
  mkMessageData (Some "alice") None (Some "hello").

Definition hello_row : Message :=
  mkMessage 1 "alice" "alice" "admin" "hello" (Some 1000%N) false.

(** A connection that is registered with an identity passing [test] and
    whose transport is open. *)
Definition registered_open (test : ConnectionInfo -> bool) (e : Env)
  (m : JsMap) (target : WebSocket) : bool :=
  match Map_get target m with
  | Some c => test c && is_OPEN (readyState e target)
  | None => false
  end.




(** A handler that leaves the registry as it found it. *)
Definition keeps_connections {A} (h : Handler A) : Prop :=
  forall e s, connections (server (snd (h e s))) = connections (server s).

(** Alice alone, as the server is after she joined at time 1000. *)
Definition alice_joined : Server :=
  server_of (handle (on_message 0 (join "alice" false "alice")) (env_at 1000)
                    emptyServer).

(** The database after [case 'join'] made sure the user exists. *)
Definition with_user (now : Timestamp) (username' : string) (isAdmin' : bool)
  (d : Db) : Db :=
  match createUser now (mkInsertUser username' (isAdmin' || false)) d with
  | Some (_, d') => d'
  | None => d
  end.

(** The presence row [case 'join'] inserts. *)
Definition presence (username' roomId' : string) (isAdmin' : bool) (e : Env)
  : InsertOnlineUser :=
  mkInsertOnlineUser username' roomId' (socketId_of username' (Date_now e))
                     (isAdmin' || false).

Definition joined_db (username' roomId' : string) (isAdmin' : bool) (e : Env)
  (d : Db) : Db :=
  snd (addOnlineUser (db_now e) (presence username' roomId' isAdmin' e)
                     (with_user (db_now e) username' isAdmin' d)).

(** ** Vocabulary for the conversation projection *)

(** [a] is not later than [b], an absent timestamp being the earliest. *)
Definition not_later (a b : option Timestamp) : Prop :=
  match a, b with
  | Some x, Some y => (x <= y)%N
  | Some _, None => False
  | None, _ => True
  end.

(** The number of messages of [l] sent by [username] to ["admin"] and not
    read. *)
Definition unread_from (username : string) (l : list Message) : nat :=
  List.length (filter (counts_unread username) l).

(** [m] is a message of [l] exchanged with [k] that no other one is later
    than. *)
Definition is_latest_of (k : string) (l : list Message) (m : Message) : Prop :=
  In m l /\ party m = k
  /\ forall m', In m' l -> party m' = k -> not_later (timestamp m') (timestamp m).

Definition entry_ok (l : list Message) (k : string) (c : Conversation) : Prop :=
  c_username c = k
  /\ inherited false k = false
  /\ unreadCount c = unread_from k l
  /\ exists m, lastMessage c = Some m /\ is_latest_of k l m.

(** The accumulator after the messages [l] went through the reducer. *)
Definition group_inv (l : list Message) (st : Reduction) : Prop :=
  NoDup (map fst (own st))
  /\ forall k,
       match own_get k (own st) with
       | Some c => entry_ok l k c
       | None =>
           inherited (polluted st) k = true \/ forall m, In m l -> party m <> k
       end.

(** The rows [getAllUsersWithMessages] selects. *)
Definition with_admin (m : Message) : bool :=
  (receiverUsername m =? "admin") || (senderUsername m =? "admin").

(** [m'] is the row [m] with [isRead] set and every other column kept. *)
Definition marked_read (m m' : Message) : Prop :=
  id m' = id m /\ roomId m' = roomId m
  /\ senderUsername m' = senderUsername m
  /\ receiverUsername m' = receiverUsername m
  /\ message m' = message m /\ timestamp m' = timestamp m
  /\ isRead m' = true.

(** In the projection of [d'], every conversation whose user sent all
    their messages to ["admin"] under [roomId'] (in the store [d]) shows
    no unread message. *)
Definition room_shows_read (roomId' : string) (d d' : Db) : Prop :=
  forall polluted0 c,
    In c (getAllUsersWithMessages polluted0 d') ->
    (forall m, In m (messages d) -> senderUsername m = c_username c ->
               receiverUsername m = "admin" -> roomId m = roomId') ->
    unreadCount c = 0.

(** The server after running the handlers of a list of events, each with
    its connection and its surroundings. *)
Definition after (evs : list (WebSocket * Inbound * Env)) (srv : Server) : Server :=
  fold_left (fun s x =>
    match x with
    | (ws, ev, e) => server_of (handle (on_message ws ev) e s)
    end) evs srv.

(** Alice joined and said hello; nobody read it. *)
Definition alice_said_hello : Server :=
  after [(0, join "alice" false "alice", env_at 1000);
         (0, message_event hello, env_at 2000)] emptyServer.

(** The admin joined and wrote a note addressed to ["admin"]. *)
Definition admin_wrote_note : Server :=
  after [(0, join "admin" true "admin", env_at 1000);
         (0, message_event
               (mkMessageData (Some "admin") (Some "admin") (Some "note")),
          env_at 2000)] emptyServer.

(** A user who chose the name ["constructor"] joined and said hello. *)
Definition constructor_said_hello : Server :=
  after [(0, join "constructor" false "constructor", env_at 1000);
         (0, message_event
               (mkMessageData (Some "constructor") None (Some "hello")),
          env_at 2000)] emptyServer.

(** ** server/storage.ts: the remaining methods *)

Definition getUser (id' : N) (d : Db) : option User :=
  find (fun u => (user_id u =? id')%N) (users d).

Definition getOnlineUsersByRoom (roomId' : string) (d : Db) : list OnlineUser :=
  filter (fun o => ou_roomId o =? roomId') (onlineUsers d).

Definition getUserBySocketId (socketId : string) (d : Db) : option OnlineUser :=
  find (fun o => ou_socketId o =? socketId) (onlineUsers d).

(** [ORDER BY created_at DESC]: descending, and PostgreSQL puts NULLs
    first.  Rows with equal keys keep their table order. *)
Definition createdAt_geb (a b : option Timestamp) : bool :=
  match a, b with
  | Some x, Some y => (y <=? x)%N
  | None, _ => true
  | Some _, None => false
  end.

Fixpoint insert_by_createdAt (h : HelpRequest) (l : list HelpRequest)
  : list HelpRequest :=
  match l with
  | [] => [h]
  | x :: r =>
      if createdAt_geb (hr_createdAt x) (hr_createdAt h)
      then x :: insert_by_createdAt h r
      else h :: x :: r
  end.

Definition orderBy_desc_createdAt (l : list HelpRequest) : list HelpRequest :=
  fold_left (fun acc h => insert_by_createdAt h acc) l [].

Definition getHelpRequests (d : Db) : list HelpRequest :=
  orderBy_desc_createdAt (helpRequests d).

Definition set_status (status : string) (h : HelpRequest) : HelpRequest :=
  mkHelpRequest (hr_id h) (hr_username h) (hr_roomId h) (hr_message h)
                status (hr_createdAt h).

Definition updateHelpRequestStatus (id' : N) (status : string) (d : Db) : Db :=
  mkDb (users d) (messages d) (onlineUsers d)
       (map (fun h => if (hr_id h =? id')%N then set_status status h else h)
            (helpRequests d))
       (users_seq d) (messages_seq d) (onlineUsers_seq d) (helpRequests_seq d).

(** ** server/routes.ts: the other REST endpoints *)

Record UserBody := mkUserBody {
  ub_username : option string;
  ub_isAdmin : option bool
}.

(** [insertUserSchema.parse]: [username] is required; [isAdmin] has a
    default, so it may be absent, and the row then gets [false]. *)
Definition insertUserSchema_parse (username' : option string)
  (isAdmin' : option bool) : option InsertUser :=
  match username' with
  | Some u =>
      Some (mkInsertUser u (match isAdmin' with Some b => b | None => false end))
  | None => None
  end.

(** What an endpoint answers: [res.json(x)] or [res.status(c).json({error})]. *)
Inductive Reply :=
| reply_user (u : User)
| reply_conversations (l : list Conversation)
| reply_onlineUsers (l : list OnlineUser)
| reply_messages (l : list Message)
| reply_helpRequests (l : list HelpRequest)
| reply_status (code : nat) (error : string).

(** [app.post('/api/users', ...)] *)
Definition post_users (body : UserBody) : Handler Reply :=
  catch
    (validatedUser <-
       parsed (insertUserSchema_parse (ub_username body) (ub_isAdmin body)) ;;
     user <- await (fun now d => createUser now validatedUser d) ;;
     ret (reply_user user))
    (ret (reply_status 400 "Invalid user data")).








(** ** Well-formed servers *)

(** Every row of a table got its [serial] id from the sequence. *)
Definition fresh_ids {A} (idf : A -> N) (seq : N) (l : list A) : Prop :=
  forall x, In x l -> (idf x < seq)%N.

Definition table_wf {A} (idf : A -> N) (seq : N) (l : list A) : Prop :=
  fresh_ids idf seq l /\ NoDup (map idf l).

Definition db_wf (d : Db) : Prop :=
  table_wf user_id (users_seq d) (users d)
  /\ NoDup (map user_username (users d))
  /\ table_wf id (messages_seq d) (messages d)
  /\ table_wf ou_id (onlineUsers_seq d) (onlineUsers d)
  /\ table_wf hr_id (helpRequests_seq d) (helpRequests d).

Definition server_wf (srv : Server) : Prop :=
  NoDup (keys (connections srv)) /\ db_wf (db srv).

(** A handler that keeps a property of the database. *)
Definition preserves {A} (P : Db -> Prop) (h : Handler A) : Prop :=
  forall e s, P (db (server s)) -> P (db (server (snd (h e s)))).

(** A handler that leaves the database as it found it. *)
Definition keeps_db {A} (h : Handler A) : Prop :=
  forall e s, db (server (snd (h e s))) = db (server s).

(** A handler that only ever adds to the trace. *)
Definition extends_trace {A} (h : Handler A) : Prop :=
  forall e s, exists t, trace (snd (h e s)) = (trace s ++ t)%list.

(** An admin event that names no target. *)
Definition no_target : MessageData :=
  mkMessageData (Some "alice") None (Some "hi").

(** Rows in non-decreasing timestamp order, absent timestamps last. *)
Definition by_timestamp (a b : Message) : Prop :=
  timestamp_leb (timestamp a) (timestamp b) = true.

(** Rows in non-increasing [created_at] order, absent ones first. *)
Definition by_createdAt_desc (a b : HelpRequest) : Prop :=
  createdAt_geb (hr_createdAt a) (hr_createdAt b) = true.

(** ** client/src/pages/admin-dashboard.tsx: the state behind the dashboard *)

(** The [data] of a [typing] frame, as kept in [typingUsers]. *)
Record TypingUser := mkTypingUser {
  tu_username : string;
  tu_isTyping : bool;
  tu_roomId : option string
}.

Record AdminState := mkAdminState {
  st_users : list Conversation;
  st_onlineUsers : list OnlineUser;
  st_messages : list Message;
  st_typingUsers : list TypingUser
}.

(** The three clock readings of the [newUser] case: [Date.now()] for the
    id, [Date.now()] for the socket id, [new Date()] for [joinedAt]. *)
Record ClientClock := mkClientClock {
  now_id : N;
  now_socketId : N;
  now_joinedAt : N
}.

(** [selectedUser] is a [string | null]; [null] and the empty string are
    falsy. *)
Definition truthy (selectedUser : option string) : bool :=
  match selectedUser with
  | Some s => negb (s =? "")
  | None => false
  end.

(** [x === selectedUser] *)
Definition is_selected (selectedUser : option string) (x : string) : bool :=
  eq_field x selectedUser.

(** The updater passed to [setTypingUsers] (the same in the three pages). *)
Definition typing_updater (typingData : TypingUser) (prev : list TypingUser)
  : list TypingUser :=
  let filtered :=
    filter (fun user => negb (tu_username user =? tu_username typingData)) prev in
  if tu_isTyping typingData then (filtered ++ [typingData])%list else filtered.

(** The updater passed to [setUsers] in [case 'message']. *)
Definition users_on_message (selectedUser : option string) (data : Message)
  (prev : list Conversation) : list Conversation :=
  match find (fun u => c_username u =? senderUsername data) prev with
  | Some _ =>
      map (fun user =>
             if c_username user =? senderUsername data
             then mkConversation (c_username user) (c_roomId user) (Some data)
                    (if is_selected selectedUser (c_username user) then 0
                     else unreadCount user + 1)
             else user) prev
  | None =>
      (prev ++
       [mkConversation (senderUsername data) (roomId data) (Some data)
          (if is_selected selectedUser (senderUsername data) then 0 else 1)])%list
  end.

(** The two updaters of [case 'newUser']. *)
Definition users_on_newUser (username' roomId' : string)
  (prev : list Conversation) : list Conversation :=
  match find (fun u => c_username u =? username') prev with
  | None => (prev ++ [mkConversation username' roomId' None 0])%list
  | Some _ => prev
  end.

Definition onlineUsers_on_newUser (clock : ClientClock) (username' roomId' : string)
  (prev : list OnlineUser) : list OnlineUser :=
  match find (fun u => ou_username u =? username') prev with
  | None =>
      (prev ++
       [mkOnlineUser (now_id clock) username' roomId'
          (socketId_of username' (now_socketId clock))
          (Some (now_joinedAt clock)) false])%list
  | Some _ => prev
  end.

(** The updater of [case 'userLeft']. *)
Definition onlineUsers_on_userLeft (username' : string) (prev : list OnlineUser)
  : list OnlineUser :=
  filter (fun u => negb (ou_username u =? username')) prev.

(** [ws.onmessage] of the dashboard: the new state and the events it
    sends back.  [selectedUser] is the value the handler closed over. *)
Definition admin_onmessage (selectedUser : option string) (clock : ClientClock)
  (st : AdminState) (f : Frame) : AdminState * list Inbound :=
  match f with
  | adminJoined usersWithMessages onlineUsers' =>
      (mkAdminState usersWithMessages onlineUsers' (st_messages st)
                    (st_typingUsers st), [])
  | message_frame data =>
      let shown :=
        truthy selectedUser
        && (is_selected selectedUser (senderUsername data)
            || is_selected selectedUser (receiverUsername data)) in
      let read_now :=
        shown && is_selected selectedUser (senderUsername data)
        && (receiverUsername data =? "admin") in
      (mkAdminState
         (users_on_message selectedUser data (st_users st))
         (st_onlineUsers st)
         (if shown then (st_messages st ++ [data])%list else st_messages st)
         (st_typingUsers st),
       if read_now
       then match selectedUser with
            | Some s => [markAsRead s]
            | None => []
            end
       else [])
  | newUser username' roomId' _ =>
      (mkAdminState
         (users_on_newUser username' roomId' (st_users st))
         (onlineUsers_on_newUser clock username' roomId' (st_onlineUsers st))
         (st_messages st) (st_typingUsers st), [])
  | userLeft username' _ =>
      (mkAdminState (st_users st)
         (onlineUsers_on_userLeft username' (st_onlineUsers st))
         (st_messages st) (st_typingUsers st), [])
  | typing_frame username' isTyping roomId' =>
      (mkAdminState (st_users st) (st_onlineUsers st) (st_messages st)
         (typing_updater (mkTypingUser username' isTyping roomId')
                         (st_typingUsers st)), [])
  | userJoined _ _ => (st, [])
  | helpRequest_frame _ => (st, [])
  end.

(** The updater [handleUserSelect] passes to [setUsers]. *)
Definition users_on_select (username' : string) (prev : list Conversation)
  : list Conversation :=
  map (fun user =>
         if c_username user =? username'
         then mkConversation (c_username user) (c_roomId user)
                             (lastMessage user) 0
         else user) prev.

(** [getAvatarColor]: [name] is the sequence of UTF-16 code units of the
    string; [None] is [undefined]. *)
Definition avatar_colors : list string :=
  [ "from-blue-500 to-purple-500"; "from-pink-500 to-rose-500";
    "from-green-500 to-blue-500"; "from-orange-500 to-red-500";
    "from-purple-500 to-indigo-500"; "from-cyan-500 to-blue-500" ].

Definition getAvatarColor (name : list nat) : option string :=
  match name with
  | [] => None
  | c :: _ => nth_error avatar_colors (c mod List.length avatar_colors)
  end.

Definition empty_dashboard : AdminState := mkAdminState [] [] [] [].

Definition clock_at (now : N) : ClientClock := mkClientClock now now now.

(** * Properties *)

(** ** The registry *)

Lemma Map_get_set_same ws v m : Map_get ws (Map_set ws v m) = Some v.
Proof.
  induction m as [|[k x] r IH]; simpl.
  - now rewrite Nat.eqb_refl.
  - destruct (Nat.eqb k ws) eqn:E; simpl; rewrite E; auto.
Qed.


Lemma Map_get_set_other ws ws' v m :
  ws' <> ws -> Map_get ws' (Map_set ws v m) = Map_get ws' m.
Proof.
  intros Hne. induction m as [|[k x] r IH]; simpl.
  - destruct (Nat.eqb ws ws') eqn:E; auto.
    apply Nat.eqb_eq in E. congruence.
  - destruct (Nat.eqb k ws) eqn:E; simpl.
    + apply Nat.eqb_eq in E. subst k.
      destruct (Nat.eqb ws ws') eqn:E'; auto.
      apply Nat.eqb_eq in E'. congruence.
    + now rewrite IH.
Qed.

Lemma keys_Map_set ws v m :
  keys (Map_set ws v m) =
  match Map_get ws m with Some _ => keys m | None => (keys m ++ [ws])%list end.
Proof.
  induction m as [|[k x] r IH]; simpl; auto.
  destruct (Nat.eqb k ws) eqn:E; simpl; auto.
  rewrite IH. now destruct (Map_get ws r).
Qed.

Lemma Map_get_None_keys ws m : Map_get ws m = None -> ~ In ws (keys m).
Proof.
  induction m as [|[k x] r IH]; simpl; auto.
  destruct (Nat.eqb k ws) eqn:E; [discriminate|].
  apply Nat.eqb_neq in E. intros H [H1|H1]; auto. now apply IH.
Qed.

Lemma NoDup_Map_set ws v m : NoDup (keys m) -> NoDup (keys (Map_set ws v m)).
Proof.
  intros H. rewrite keys_Map_set.
  destruct (Map_get ws m) eqn:E; auto.
  apply Map_get_None_keys in E.
  apply NoDup_rev in H. rewrite <- (rev_involutive (keys m ++ [ws])).
  apply NoDup_rev. rewrite rev_app_distr. simpl. constructor; auto.
  now rewrite <- in_rev.
Qed.

Lemma NoDup_Map_delete ws m : NoDup (keys m) -> NoDup (keys (Map_delete ws m)).
Proof.
  unfold Map_delete, keys.
  induction m as [|[k x] r IH]; simpl; auto.
  intros H. inversion H as [|? ? Hn Hr]; subst.
  destruct (Nat.eqb k ws); simpl; auto.
  constructor; auto.
  intros Hin. apply Hn. apply in_map_iff in Hin.
  destruct Hin as [p [Hp Hin]]. apply filter_In in Hin.
  apply in_map_iff. exists p. tauto.
Qed.

(** ** Running a broadcast *)

Lemma forEach_run test f e m s :
  forEach m (fun targetInfo targetWs =>
    if test targetInfo && is_OPEN (readyState e targetWs)
    then ws_send targetWs f else ret tt) e s
  = (Returned tt,
     mkRun (server s) (trace s ++ sends f (recipients test e m)) (statements s)).
Proof.
  revert s. induction m as [|[k x] r IH]; intros s; simpl.
  - unfold ret. rewrite app_nil_r. now destruct s.
  - unfold bind at 1.
    destruct (test x && is_OPEN (readyState e k)) eqn:E; simpl.
    + unfold ws_send, emit. simpl. rewrite IH. simpl.
      now rewrite <- app_assoc.
    + unfold ret at 1. now rewrite IH.
Qed.

Lemma broadcast_run test f e s :
  broadcast test f e s
  = (Returned tt,
     mkRun (server s)
           (trace s ++ sends f (recipients test e (connections (server s))))
           (statements s)).
Proof.
  unfold broadcast, bind, ask, get_connections. apply forEach_run.
Qed.

Lemma received_app ws t1 t2 :
  received ws (t1 ++ t2) = (received ws t1 ++ received ws t2)%list.
Proof. unfold received. apply flat_map_app. Qed.

Lemma received_sends_absent ws f m :
  ~ In ws (keys m) -> received ws (sends f m) = [].
Proof.
  induction m as [|[k x] r IH]; simpl; auto.
  intros H. destruct (Nat.eqb k ws) eqn:E.
  - apply Nat.eqb_eq in E. tauto.
  - apply IH. tauto.
Qed.

Lemma keys_recipients_incl test e m ws :
  In ws (keys (recipients test e m)) -> In ws (keys m).
Proof.
  unfold keys, recipients. rewrite !in_map_iff.
  intros [p [Hp Hin]]. apply filter_In in Hin. exists p. tauto.
Qed.

(** With unique keys, a connection is sent the frame once if it is
    registered, passes the test and is open, and not at all otherwise. *)
Lemma received_broadcast test f e m ws :
  NoDup (keys m) ->
  received ws (sends f (recipients test e m)) =
  match Map_get ws m with
  | Some targetInfo =>
      if test targetInfo && is_OPEN (readyState e ws) then [f] else []
  | None => []
  end.
Proof.
  induction m as [|[k x] r IH]; simpl; auto.
  intros H. inversion H as [|? ? Hn Hr]; subst.
  destruct (Nat.eqb k ws) eqn:E.
  - apply Nat.eqb_eq in E. subst k.
    destruct (test x && is_OPEN (readyState e ws)) eqn:T; simpl.
    + rewrite Nat.eqb_refl. simpl. f_equal.
      apply received_sends_absent.
      intros Hin. apply Hn. eapply keys_recipients_incl, Hin.
    + apply received_sends_absent.
      intros Hin. apply Hn. eapply keys_recipients_incl, Hin.
  - destruct (test x && is_OPEN (readyState e k)) eqn:T; simpl.
    + rewrite E. simpl. now apply IH.
    + now apply IH.
Qed.

(** ** The message router *)

Lemma eq_field_spec a b : eq_field a b = true <-> Some a = b.
Proof.
  destruct b as [b|]; simpl.
  - rewrite String.eqb_eq. split; congruence.
  - split; discriminate.
Qed.

Lemma message_test_spec sender messageData c :
  message_test sender messageData c = true
  <-> in_fanout_set sender (md_targetUsername messageData) c.
Proof.
  unfold message_test, in_fanout_set, admin_message_test, user_message_test.
  destruct (isAdmin sender).
  - rewrite orb_true_iff, andb_true_iff, eq_field_spec, String.eqb_eq. tauto.
  - rewrite orb_true_iff, String.eqb_eq. tauto.
Qed.

(** What handling a [message] event from a registered connection does. *)
Lemma message_event_run ws messageData e srv sender :
  Map_get ws (connections srv) = Some sender ->
  handle (on_message ws (message_event messageData)) e srv =
  match insertMessageSchema_parse (md_roomId messageData)
          (Some (username sender))
          (if isAdmin sender then md_targetUsername messageData else Some "admin")
          (md_message messageData) with
  | None => (Returned tt, srv, [ConsoleError])
  | Some v =>
      if db_fails e 0 then (Returned tt, srv, [ConsoleError])
      else
        (Returned tt,
         mkServer (connections srv) (snd (createMessage (db_now e) v (db srv))),
         Stored (fst (createMessage (db_now e) v (db srv)))
         :: sends (message_frame (fst (createMessage (db_now e) v (db srv))))
                  (recipients (message_test sender messageData) e
                              (connections srv)))
  end.
Proof.
  intros Hget.
  unfold handle, on_message, catch, case_message.
  unfold bind at 1. unfold get_connections at 1. simpl. rewrite Hget.
  destruct (insertMessageSchema_parse _ _ _ _) as [v|]; simpl.
  - unfold bind at 1. simpl.
    unfold storage_createMessage, insert, await, bind. simpl.
    destruct (db_fails e 0); simpl.
    + now destruct srv.
    + unfold message_test.
      destruct (isAdmin sender); rewrite broadcast_run; simpl; reflexivity.
  - unfold bind, throw. simpl. now destruct srv.
Qed.

Lemma message_event_unregistered ws messageData e srv :
  Map_get ws (connections srv) = None ->
  handle (on_message ws (message_event messageData)) e srv = (Returned tt, srv, []).
Proof.
  intros Hget.
  unfold handle, on_message, catch, case_message, bind, get_connections.
  simpl. rewrite Hget. unfold ret. simpl. now destruct srv.
Qed.

(** A well-formed [message] event is stored when the database executes
    the insert. *)
Lemma message_event_persists ws messageData e srv sender r b :
  Map_get ws (connections srv) = Some sender ->
  md_roomId messageData = Some r ->
  md_message messageData = Some b ->
  (isAdmin sender = true -> exists t, md_targetUsername messageData = Some t) ->
  db_fails e 0 = false ->
  exists msg,
    In (Stored msg)
       (effects_of (handle (on_message ws (message_event messageData)) e srv))
    /\ messages (db (server_of
                      (handle (on_message ws (message_event messageData)) e srv)))
       = (messages (db srv) ++ [msg])%list.
Proof.
  intros Hget Hr Hb Ht Hup. rewrite (message_event_run _ _ _ _ _ Hget).
  rewrite Hr, Hb, Hup.
  destruct (isAdmin sender).
  - destruct (Ht eq_refl) as [t ->]. simpl.
    eexists. split; [left; reflexivity|reflexivity].
  - simpl. eexists. split; [left; reflexivity|reflexivity].
Qed.

Lemma In_sends x f m : In x (sends f m) -> exists ws, x = Send ws f.
Proof.
  unfold sends. rewrite in_map_iff. intros [p [Hp _]]. eauto.
Qed.

(** The message a [message] event stores, when it stores one. *)
Lemma message_event_stored ws messageData e srv sender msg :
  Map_get ws (connections srv) = Some sender ->
  In (Stored msg)
     (effects_of (handle (on_message ws (message_event messageData)) e srv)) ->
  exists v,
    insertMessageSchema_parse (md_roomId messageData)
      (Some (username sender))
      (if isAdmin sender then md_targetUsername messageData else Some "admin")
      (md_message messageData) = Some v
    /\ db_fails e 0 = false
    /\ msg = fst (createMessage (db_now e) v (db srv)).
Proof.
  intros Hget Hin. rewrite (message_event_run _ _ _ _ _ Hget) in Hin.
  destruct (insertMessageSchema_parse _ _ _ _) as [v|] eqn:P.
  - destruct (db_fails e 0) eqn:F; simpl in Hin.
    + destruct Hin as [H|[]]. discriminate.
    + exists v. repeat split; auto.
      destruct Hin as [H|H]; [injection H as <-; reflexivity|].
      apply In_sends in H. destruct H as [w H]. discriminate.
  - simpl in Hin. destruct Hin as [H|[]]. discriminate.
Qed.

(** C2.  When a [message] event from a registered sender is persisted, a
    connection receives exactly one frame, the persisted message, if it is
    registered with an identity in the fan-out set (for an admin sender:
    username equal to the event's [targetUsername], or admin with the
    sender's username; for a user sender: admin, or the sender's username)
    and its transport is open; every other connection receives nothing. *)
Theorem message_fanout ws messageData e srv sender msg target :
  NoDup (keys (connections srv)) ->
  Map_get ws (connections srv) = Some sender ->
  In (Stored msg)
     (effects_of (handle (on_message ws (message_event messageData)) e srv)) ->
  let got :=
    received target
      (effects_of (handle (on_message ws (message_event messageData)) e srv)) in
  let in_set :=
    exists c, Map_get target (connections srv) = Some c
              /\ in_fanout_set sender (md_targetUsername messageData) c
              /\ readyState e target = OPEN in
  (in_set -> got = [message_frame msg]) /\ (~ in_set -> got = []).
Proof.
  intros Hnd Hget Hin got in_set. subst got in_set.
  destruct (message_event_stored _ _ _ _ _ _ Hget Hin) as [v [Hp [Hf Hm]]].
  rewrite (message_event_run _ _ _ _ _ Hget), Hp, Hf. subst msg.
  generalize (fst (createMessage (db_now e) v (db srv))). intros row.
  unfold effects_of, snd.
  change (Stored row :: ?l) with ([Stored row] ++ l)%list.
  rewrite received_app, received_broadcast by exact Hnd. simpl.
  split.
  - intros [c [Hc [Hs Ho]]]. rewrite Hc.
    apply message_test_spec in Hs. rewrite Hs, Ho. reflexivity.
  - intros Hn. destruct (Map_get target (connections srv)) as [c|] eqn:Hc; auto.
    destruct (message_test sender messageData c) eqn:T; auto.
    destruct (readyState e target) eqn:Ho; auto.
    exfalso. apply Hn. exists c. rewrite <- message_test_spec. auto.
Qed.

Lemma message_fanout_witness :
  received 1
    (effects_of (handle (on_message 0 (message_event hello)) (env_at 1000)
                        alice_and_admin))
  = [message_frame hello_row].
Proof.
  refine (proj1 (message_fanout 0 hello (env_at 1000) alice_and_admin
                   alice_info hello_row 1 _ _ _) _).
  - simpl. repeat constructor; simpl; intuition discriminate.
  - reflexivity.
  - vm_compute. left. reflexivity.
  - exists admin_info. repeat split. simpl. left. reflexivity.
Defined.

(** C3.  A message persisted for a user sender is addressed to ["admin"];
    one persisted for an admin sender is addressed to the [targetUsername]
    of the event, which is not ["admin"] unless the admin targeted that
    name; so no persisted message has a user as sender and a receiver other
    than ["admin"]. *)
Theorem receiver_of_persisted ws messageData e srv sender msg :
  Map_get ws (connections srv) = Some sender ->
  In (Stored msg)
     (effects_of (handle (on_message ws (message_event messageData)) e srv)) ->
  senderUsername msg = username sender
  /\ (isAdmin sender = false -> receiverUsername msg = "admin")
  /\ (isAdmin sender = true ->
      md_targetUsername messageData = Some (receiverUsername msg)
      /\ (md_targetUsername messageData <> Some "admin" ->
          receiverUsername msg <> "admin"))
  /\ ~ (isAdmin sender = false /\ receiverUsername msg <> "admin").
Proof.
  intros Hget Hin.
  destruct (message_event_stored _ _ _ _ _ _ Hget Hin) as [v [Hp [_ Hm]]].
  subst msg. simpl.
  unfold insertMessageSchema_parse in Hp.
  destruct (md_roomId messageData) as [r|]; [|discriminate].
  destruct (isAdmin sender) eqn:A.
  - destruct (md_targetUsername messageData) as [t|]; [|discriminate].
    destruct (md_message messageData) as [b|]; [|discriminate].
    injection Hp as <-. simpl.
    repeat split; try discriminate; try congruence.
    intros [H _]. discriminate.
  - destruct (md_message messageData) as [b|]; [|discriminate].
    injection Hp as <-. simpl.
    repeat split; try discriminate; try congruence.
    intros [_ H]. now apply H.
Qed.

Lemma receiver_of_persisted_witness :
  senderUsername hello_row = "alice" /\ receiverUsername hello_row = "admin".
Proof.
  destruct (receiver_of_persisted 0 hello (env_at 1000) alice_and_admin
              alice_info hello_row) as [H1 [H2 _]].
  - reflexivity.
  - vm_compute. left. reflexivity.
  - split; [exact H1 | apply H2; reflexivity].
Defined.

Lemma received_sends_only t :
  (forall x, In x t -> forall ws f, x <> Send ws f) ->
  forall ws, received ws t = [].
Proof.
  intros H ws. induction t as [|x t IH]; simpl; auto.
  rewrite IH by (intros; apply H; now right).
  destruct x; auto. exfalso. eapply (H (Send ws0 f)); [now left | reflexivity].
Qed.

Lemma createMessage_spec now v d :
  messages (snd (createMessage now v d))
  = (messages d ++ [fst (createMessage now v d)])%list.
Proof. reflexivity. Qed.

(** C5.  In the trace of a [message] event every [ws.send] comes after the
    row was stored, and carries that row; if the write fails, the database
    is unchanged and no connection, the sender included, is sent anything:
    the failure is only logged. *)
Theorem persist_before_deliver ws messageData e srv :
  let r := handle (on_message ws (message_event messageData)) e srv in
  (forall pre target f post,
      effects_of r = (pre ++ Send target f :: post)%list ->
      exists msg, f = message_frame msg /\ In (Stored msg) pre
                  /\ In msg (messages (db (server_of r))))
  /\ (db_fails e 0 = true ->
      db (server_of r) = db srv
      /\ (forall msg, ~ In (Stored msg) (effects_of r))
      /\ (forall target, received target (effects_of r) = [])).
Proof.
  intros r. subst r.
  destruct (Map_get ws (connections srv)) as [sender|] eqn:Hget.
  2:{ rewrite (message_event_unregistered _ _ _ _ Hget).
      unfold effects_of, server_of. simpl. split.
      - intros pre target f post H. now destruct pre.
      - auto. }
  rewrite (message_event_run _ _ _ _ _ Hget).
  assert (Hlog : forall pre target f post,
             [ConsoleError] <> (pre ++ Send target f :: post)%list).
  { intros [|x [|y pre]] target f post H; simpl in H; discriminate. }
  destruct (insertMessageSchema_parse _ _ _ _) as [v|].
  - destruct (db_fails e 0) eqn:F.
    + unfold effects_of, server_of. simpl. split.
      * intros pre target f post H. now apply Hlog in H.
      * intros _. repeat split; auto.
        intros msg [H|[]]. discriminate.
    + split; [|discriminate].
      unfold effects_of, server_of, fst, snd.
      generalize (createMessage_spec (db_now e) v (db srv)).
      generalize (createMessage (db_now e) v (db srv)). intros [row d'] Hd.
      simpl in Hd. simpl fst. simpl snd.
      intros pre target f post H.
      destruct pre as [|x pre]; [discriminate|].
      injection H as Hx Hrest. subst x.
      exists row. repeat split.
      * assert (Hin : In (Send target f)
                  (sends (message_frame row)
                     (recipients (message_test sender messageData) e
                                 (connections srv)))).
        { rewrite Hrest. apply in_elt. }
        apply In_sends in Hin. destruct Hin as [w Hw]. congruence.
      * now left.
      * simpl. rewrite Hd. apply in_elt.
  - unfold effects_of, server_of. simpl. split.
    + intros pre target f post H. now apply Hlog in H.
    + intros _. repeat split; auto.
      intros msg [H|[]]. discriminate.
Qed.

Lemma persist_before_deliver_witness :
  let e := mkEnv 1000%N 1000%N all_open (fun _ => true) false in
  let r := handle (on_message 0 (message_event hello)) e alice_and_admin in
  db (server_of r) = db alice_and_admin
  /\ (forall msg, ~ In (Stored msg) (effects_of r))
  /\ (forall target, received target (effects_of r) = []).
Proof.
  intros e r.
  apply (proj2 (persist_before_deliver 0 hello e alice_and_admin)).
  reflexivity.
Defined.

Lemma received_registered_open test f e m ws :
  NoDup (keys m) ->
  received ws (sends f (recipients test e m)) =
  if registered_open test e m ws then [f] else [].
Proof.
  intros H. rewrite received_broadcast by exact H.
  unfold registered_open. now destruct (Map_get ws m).
Qed.

(** ** Typing indicators *)

Lemma typing_event_run ws typingData e srv sender :
  Map_get ws (connections srv) = Some sender ->
  handle (on_message ws (typing_event typingData)) e srv =
  (Returned tt, srv,
   if isAdmin sender
   then sends (typing_frame (username sender) (td_isTyping typingData) None)
          (recipients (fun c => eq_field (username c) (td_targetUsername typingData))
                      e (connections srv))
   else sends (typing_frame (username sender) (td_isTyping typingData)
                            (Some (info_roomId sender)))
          (recipients isAdmin e (connections srv))).
Proof.
  intros Hget.
  unfold handle, on_message, catch, case_typing.
  unfold bind at 1. unfold get_connections at 1. simpl. rewrite Hget.
  destruct (isAdmin sender); rewrite broadcast_run; simpl; now destruct srv.
Qed.

(** C9.  A [typing] event from a registered connection changes neither the
    database nor the registry and stores nothing.  From a user, the frame
    [{username, isTyping, roomId}] goes once to every open admin
    connection and to no other; from an admin, the frame
    [{username, isTyping}] goes once to every open connection whose
    username is the event's [targetUsername] and to no other. *)
Theorem typing_fanout ws typingData e srv sender :
  NoDup (keys (connections srv)) ->
  Map_get ws (connections srv) = Some sender ->
  let r := handle (on_message ws (typing_event typingData)) e srv in
  server_of r = srv
  /\ (forall x, In x (effects_of r) -> exists target f, x = Send target f)
  /\ (isAdmin sender = false ->
      forall target,
        received target (effects_of r) =
        if registered_open isAdmin e (connections srv) target
        then [typing_frame (username sender) (td_isTyping typingData)
                           (Some (info_roomId sender))]
        else [])
  /\ (isAdmin sender = true ->
      forall target,
        received target (effects_of r) =
        if registered_open
             (fun c => eq_field (username c) (td_targetUsername typingData))
             e (connections srv) target
        then [typing_frame (username sender) (td_isTyping typingData) None]
        else []).
Proof.
  intros Hnd Hget r. subst r. rewrite (typing_event_run _ _ _ _ _ Hget).
  unfold server_of, effects_of. simpl fst. simpl snd.
  split; [reflexivity|]. split; [|split].
  - intros x Hx. destruct (isAdmin sender);
      apply In_sends in Hx; destruct Hx as [w Hw]; eauto.
  - intros A target. rewrite A. now apply received_registered_open.
  - intros A target. rewrite A. now apply received_registered_open.
Qed.

Lemma typing_fanout_witness :
  received 1
    (effects_of (handle (on_message 0 (typing_event (mkTypingData None true)))
                        (env_at 1000) alice_and_admin))
  = [typing_frame "alice" true (Some "alice")].
Proof.
  destruct (typing_fanout 0 (mkTypingData None true) (env_at 1000)
              alice_and_admin alice_info) as [_ [_ [H _]]].
  - simpl. repeat constructor; simpl; intuition discriminate.
  - reflexivity.
  - exact (H eq_refl 1).
Defined.

(** ** Help requests *)

Lemma post_help_requests_run body e srv :
  handle (post_help_requests body) e srv =
  match insertHelpRequestSchema_parse (body_username body) (body_roomId body)
          (body_message body) (body_status body) with
  | None => (Returned res_status_400, srv, [])
  | Some v =>
      if db_fails e 0 then (Returned res_status_400, srv, [])
      else
        (Returned (res_json (fst (createHelpRequest (db_now e) v (db srv)))),
         mkServer (connections srv) (snd (createHelpRequest (db_now e) v (db srv))),
         StoredHelpRequest (fst (createHelpRequest (db_now e) v (db srv)))
         :: sends (helpRequest_frame (fst (createHelpRequest (db_now e) v (db srv))))
                  (recipients isAdmin e (connections srv)))
  end.
Proof.
  unfold handle, post_help_requests, catch.
  destruct (insertHelpRequestSchema_parse _ _ _ _) as [v|]; simpl.
  - unfold bind at 1. simpl.
    unfold storage_createHelpRequest, insert, await, bind. simpl.
    destruct (db_fails e 0); simpl.
    + now destruct srv.
    + rewrite broadcast_run. simpl. reflexivity.
  - unfold bind, throw, ret. simpl. now destruct srv.
Qed.



(** ** Joining and leaving *)

Lemma keeps_ret {A} (a : A) : keeps_connections (ret a).
Proof. now intros e s. Qed.

Lemma keeps_throw {A} : keeps_connections (@throw A).
Proof. now intros e s. Qed.

Lemma keeps_ask : keeps_connections ask.
Proof. now intros e s. Qed.

Lemma keeps_emit x : keeps_connections (emit x).
Proof. now intros e s. Qed.

Lemma keeps_await {A} (f : Timestamp -> Db -> option (A * Db)) :
  keeps_connections (await f).
Proof.
  intros e s. unfold await.
  destruct (db_fails e (statements s)); auto.
  now destruct (f (db_now e) (db (server s))) as [[a d']|].
Qed.

Lemma keeps_bind {A B} (m : Handler A) (k : A -> Handler B) :
  keeps_connections m -> (forall a, keeps_connections (k a)) ->
  keeps_connections (bind m k).
Proof.
  intros Hm Hk e s. unfold bind. specialize (Hm e s).
  destruct (m e s) as [[a|] s']; simpl in *; auto.
  now rewrite Hk.
Qed.

Lemma keeps_broadcast test f : keeps_connections (broadcast test f).
Proof. intros e s. now rewrite broadcast_run. Qed.

Ltac keeps :=
  repeat first
    [ apply keeps_broadcast
    | apply keeps_ret | apply keeps_throw | apply keeps_ask | apply keeps_emit
    | apply keeps_await
    | apply keeps_bind; [|intros ?]
    | match goal with |- keeps_connections (match ?x with _ => _ end) =>
        destruct x end
    | match goal with |- keeps_connections (if ?x then _ else _) =>
        destruct x end ].

(** After the registry is written, the rest of [case 'join'] leaves it. *)
Lemma case_join_connections ws username' isAdmin' roomId' e s :
  connections (server (snd (case_join ws username' isAdmin' roomId' e s)))
  = Map_set ws (mkInfo username' isAdmin' roomId') (connections (server s)).
Proof.
  unfold case_join.
  unfold bind at 1. unfold get_connections at 1.
  unfold bind at 1. unfold put_connections at 1.
  match goal with
  | |- connections (server (snd (?h e ?s'))) = _ =>
      assert (K : keeps_connections h)
  end.
  { unfold query, insert, ws_send. keeps. }
  now rewrite K.
Qed.

Lemma on_message_join_connections ws username' isAdmin' roomId' e srv :
  connections
    (server_of (handle (on_message ws (join username' isAdmin' roomId')) e srv))
  = Map_set ws (mkInfo username' isAdmin' roomId') (connections srv).
Proof.
  unfold handle, server_of, on_message, catch.
  generalize (case_join_connections ws username' isAdmin' roomId' e
                (mkRun srv [] 0)).
  destruct (case_join ws username' isAdmin' roomId' e (mkRun srv [] 0))
    as [[[]|] s']; simpl; auto.
Qed.

(** What [case 'join'] does when the database executes every statement. *)
Lemma join_run ws username' isAdmin' roomId' e srv :
  (forall k, db_fails e k = false) ->
  handle (on_message ws (join username' isAdmin' roomId')) e srv =
  let m := Map_set ws (mkInfo username' isAdmin' roomId') (connections srv) in
  let d := joined_db username' roomId' isAdmin' e (db srv) in
  (Returned tt, mkServer m d,
   if isAdmin'
   then [Send ws (adminJoined
                    (getAllUsersWithMessages (Object_prototype_lastMessage e) d)
                    (getAllOnlineUsers d))]
   else Send ws (userJoined (getMessagesBetweenUsers username' "admin" d) roomId')
        :: sends (newUser username' roomId' true) (recipients isAdmin e m)).
Proof.
  intros Hup.
  unfold handle, on_message, catch, case_join, joined_db, with_user.
  unfold bind, get_connections, put_connections, query, insert, await, ask,
    ws_send, emit. simpl.
  rewrite !Hup.
  unfold createUser. simpl.
  destruct (getUserByUsername username' (db srv)) eqn:G; simpl;
    rewrite ?Hup; simpl; rewrite ?G; simpl; rewrite ?Hup; simpl.
  all: destruct isAdmin'; simpl; rewrite ?Hup; simpl;
    rewrite ?broadcast_run; reflexivity.
Qed.

(** C8 (as amended).  Registration never fails: a [join] event binds the
    connection to exactly the identity supplied, whether the connection is
    fresh or already registered (the earlier identity is then replaced),
    whatever usernames the other connections carry, and even when a later
    database statement of the handler fails; every other binding is left
    as it was, and with a working database nothing is logged as an error. *)
Theorem join_binds_identity ws username' isAdmin' roomId' e srv :
  let r := handle (on_message ws (join username' isAdmin' roomId')) e srv in
  Map_get ws (connections (server_of r)) = Some (mkInfo username' isAdmin' roomId')
  /\ (forall ws', ws' <> ws ->
        Map_get ws' (connections (server_of r)) = Map_get ws' (connections srv))
  /\ ((forall k, db_fails e k = false) ->
      outcome_of r = Returned tt /\ ~ In ConsoleError (effects_of r)).
Proof.
  intros r. subst r. rewrite on_message_join_connections.
  split; [apply Map_get_set_same|]. split.
  - intros ws' Hne. now apply Map_get_set_other.
  - intros Hup. rewrite (join_run _ _ _ _ _ _ Hup).
    unfold outcome_of, effects_of. simpl. split; [reflexivity|].
    destruct isAdmin'.
    + intros [H|[]]. discriminate.
    + intros [H|H]; [discriminate|].
      apply In_sends in H. destruct H as [w H]. discriminate.
Qed.

Lemma join_binds_identity_witness :
  let r := handle (on_message 0 (join "mallory" true "admin")) (env_at 2000)
                  alice_joined in
  outcome_of r = Returned tt /\ ~ In ConsoleError (effects_of r).
Proof.
  intros r.
  apply (proj2 (proj2 (join_binds_identity 0 "mallory" true "admin"
                         (env_at 2000) alice_joined))).
  reflexivity.
Defined.

(** C8, counterexample: connection 0 is registered as alice,
    a second [join] on it is handled without any error and rebinds it. *)
Lemma join_on_registered_connection_is_accepted :
  let r := handle (on_message 0 (join "mallory" true "admin")) (env_at 2000)
                  alice_joined in
  Map_get 0 (connections alice_joined) = Some alice_info
  /\ outcome_of r = Returned tt
  /\ ~ In ConsoleError (effects_of r)
  /\ Map_get 0 (connections (server_of r)) = Some (mkInfo "mallory" true "admin").
Proof.
  vm_compute. repeat split; try reflexivity.
  intros [H|[]]. discriminate.
Qed.

(** ** Presence *)

Lemma on_close_run ws e srv info :
  Map_get ws (connections srv) = Some info ->
  handle (on_close ws) e srv =
  if db_fails e 0 then (Thrown, srv, [])
  else
    (Returned tt,
     mkServer (Map_delete ws (connections srv))
              (removeOnlineUser (socketId_of (username info) (Date_now e)) (db srv)),
     if negb (isAdmin info)
     then sends (userLeft (username info) (info_roomId info))
                (recipients isAdmin e (connections srv))
     else []).
Proof.
  intros Hget. unfold handle, on_close.
  unfold bind at 1. unfold get_connections at 1. simpl. rewrite Hget.
  unfold bind, ask, update, await. simpl.
  destruct (db_fails e 0); [now destruct srv|].
  destruct (negb (isAdmin info)); simpl.
  - rewrite broadcast_run. reflexivity.
  - reflexivity.
Qed.

Lemma append_inj_r (p a b : string) : p ++ a = p ++ b -> a = b.
Proof.
  induction p as [|c p IH]; simpl; auto. intros H. injection H as H. auto.
Qed.

Lemma string_of_N_inj n n' : string_of_N n = string_of_N n' -> n = n'.
Proof.
  unfold string_of_N. intros H.
  apply DecimalN.Unsigned.to_uint_inj.
  apply (f_equal NilEmpty.uint_of_string) in H.
  rewrite !NilEmpty.usu in H. congruence.
Qed.

Lemma socketId_of_inj username' t t' :
  socketId_of username' t = socketId_of username' t' -> t = t'.
Proof.
  unfold socketId_of. intros H.
  apply append_inj_r in H. apply (append_inj_r "-") in H.
  now apply string_of_N_inj.
Qed.

(** The presence row written when the connection joined at time [t]
    survives the close of that connection at any other time. *)
Lemma close_keeps_presence ws e srv info t o :
  Map_get ws (connections srv) = Some info ->
  In o (onlineUsers (db srv)) ->
  ou_socketId o = socketId_of (username info) t ->
  t <> Date_now e ->
  In o (onlineUsers (db (server_of (handle (on_close ws) e srv)))).
Proof.
  intros Hget Hin Hid Hne. rewrite (on_close_run _ _ _ _ Hget).
  destruct (db_fails e 0); unfold server_of; simpl; auto.
  apply filter_In. split; auto.
  apply negb_true_iff, String.eqb_neq. rewrite Hid.
  intros H. now apply socketId_of_inj in H.
Qed.

(** Only a close within the millisecond of the join removes it. *)
Lemma close_same_millisecond ws e srv info o :
  Map_get ws (connections srv) = Some info ->
  db_fails e 0 = false ->
  ou_socketId o = socketId_of (username info) (Date_now e) ->
  ~ In o (onlineUsers (db (server_of (handle (on_close ws) e srv)))).
Proof.
  intros Hget Hup Hid. rewrite (on_close_run _ _ _ _ Hget), Hup.
  unfold server_of. simpl. rewrite filter_In, Hid, String.eqb_refl.
  intros [_ H]. discriminate.
Qed.

(** C1, the code at the failing input: alice joins on connection 0 at time
    1000 and that connection closes at time 2000.  The registry is empty
    afterwards, yet the presence row of the join is still stored and
    "is user online" still answers true. *)
Theorem close_leaves_presence_row :
  let r := handle (on_close 0) (env_at 2000) alice_joined in
  outcome_of r = Returned tt
  /\ connections (server_of r) = []
  /\ map ou_socketId (onlineUsers (db alice_joined)) = ["alice-1000"]
  /\ onlineUsers (db (server_of r)) = onlineUsers (db alice_joined)
  /\ isOnline "alice" (db (server_of r)) = true.
Proof. vm_compute. repeat split. Qed.

(** ** The accumulator object and [Object.values] *)

Lemma own_get_set_same {A} k (v : A) o : own_get k (own_set k v o) = Some v.
Proof.
  induction o as [|[k' x] r IH]; simpl.
  - now rewrite String.eqb_refl.
  - destruct (k' =? k) eqn:E; simpl; rewrite E; auto.
Qed.

Lemma own_get_set_other {A} k k' (v : A) o :
  k' <> k -> own_get k' (own_set k v o) = own_get k' o.
Proof.
  intros Hne. induction o as [|[k0 x] r IH]; simpl.
  - destruct (k =? k') eqn:E; auto.
    apply String.eqb_eq in E. congruence.
  - destruct (k0 =? k) eqn:E; simpl.
    + apply String.eqb_eq in E. subst k0.
      destruct (k =? k') eqn:E'; auto.
      apply String.eqb_eq in E'. congruence.
    + now rewrite IH.
Qed.

Lemma own_set_set {A} k (v v' : A) o :
  own_set k v (own_set k v' o) = own_set k v o.
Proof.
  induction o as [|[k0 x] r IH]; simpl.
  - now rewrite String.eqb_refl.
  - destruct (k0 =? k) eqn:E; simpl; rewrite E; auto. now rewrite IH.
Qed.

Lemma own_get_In {A} k (c : A) o : own_get k o = Some c -> In (k, c) o.
Proof.
  induction o as [|[k0 x] r IH]; simpl; [discriminate|].
  destruct (k0 =? k) eqn:E.
  - apply String.eqb_eq in E. intros H. left. congruence.
  - auto.
Qed.

Lemma own_get_None {A} k (o : JsObject A) :
  own_get k o = None -> ~ In k (map fst o).
Proof.
  induction o as [|[k0 x] r IH]; simpl; auto.
  destruct (k0 =? k) eqn:E; [discriminate|].
  apply String.eqb_neq in E. intros H [H1|H1]; auto. now apply IH.
Qed.

Lemma In_own_get {A} k (c : A) o :
  NoDup (map fst o) -> In (k, c) o -> own_get k o = Some c.
Proof.
  induction o as [|[k0 x] r IH]; simpl; [tauto|].
  intros Hnd [H|H]; inversion Hnd as [|? ? Hn Hr]; subst.
  - injection H as -> ->. now rewrite String.eqb_refl.
  - destruct (k0 =? k) eqn:E; auto.
    apply String.eqb_eq in E. subst k0.
    exfalso. apply Hn. apply in_map_iff. now exists (k, c).
Qed.

Lemma keys_own_set {A} k (v : A) o :
  map fst (own_set k v o) =
  match own_get k o with
  | Some _ => map fst o
  | None => (map fst o ++ [k])%list
  end.
Proof.
  induction o as [|[k0 x] r IH]; simpl; auto.
  destruct (k0 =? k) eqn:E; simpl; auto.
  rewrite IH. now destruct (own_get k r).
Qed.

Lemma NoDup_snoc {A} (l : list A) x : NoDup l -> ~ In x l -> NoDup (l ++ [x]).
Proof.
  intros H Hn. apply NoDup_rev in H.
  rewrite <- (rev_involutive (l ++ [x])). apply NoDup_rev.
  rewrite rev_app_distr. simpl. constructor; auto. now rewrite <- in_rev.
Qed.

Lemma NoDup_own_set {A} k (v : A) o :
  NoDup (map fst o) -> NoDup (map fst (own_set k v o)).
Proof.
  intros H. rewrite keys_own_set.
  destruct (own_get k o) eqn:E; auto.
  apply NoDup_snoc; auto. now apply own_get_None.
Qed.

Lemma In_insert_by_index {A} (p q : string * A) l :
  In q (insert_by_index p l) <-> q = p \/ In q l.
Proof.
  induction l as [|x r IH]; simpl.
  - intuition.
  - destruct (index_leb (fst x) (fst p)); simpl; rewrite ?IH; intuition.
Qed.

Lemma In_fold_insert_by_index {A} (q : string * A) l acc :
  In q (fold_left (fun acc p => insert_by_index p acc) l acc)
  <-> In q l \/ In q acc.
Proof.
  revert acc. induction l as [|x r IH]; intros acc; simpl.
  - intuition.
  - rewrite IH, In_insert_by_index. intuition.
Qed.

Lemma In_own_keys_order {A} (q : string * A) o :
  In q (own_keys_order o) <-> In q o.
Proof.
  unfold own_keys_order.
  rewrite in_app_iff, In_fold_insert_by_index, !filter_In. simpl.
  destruct (is_array_index (fst q)); simpl; intuition discriminate.
Qed.

(** [Object.values] returns the values of the own properties, each once. *)
Lemma In_Object_values {A} (c : A) o :
  In c (Object_values o) <-> exists k, In (k, c) o.
Proof.
  unfold Object_values. rewrite in_map_iff. split.
  - intros [[k c'] [Hc Hin]]. simpl in Hc. subst c'.
    exists k. now apply In_own_keys_order.
  - intros [k Hin]. exists (k, c). split; auto. now apply In_own_keys_order.
Qed.

(** ** [ORDER BY] keeps the rows *)

Lemma In_insert_by_timestamp m x l :
  In x (insert_by_timestamp m l) <-> x = m \/ In x l.
Proof.
  induction l as [|y r IH]; simpl.
  - intuition.
  - destruct (timestamp_leb (timestamp y) (timestamp m)); simpl;
      rewrite ?IH; intuition.
Qed.

Lemma filter_insert_by_timestamp f m l :
  List.length (filter f (insert_by_timestamp m l)) = List.length (filter f (m :: l)).
Proof.
  induction l as [|y r IH]; simpl; auto.
  destruct (timestamp_leb (timestamp y) (timestamp m)); simpl; auto.
  simpl in IH. destruct (f y), (f m); simpl in *; rewrite IH; auto.
Qed.

Lemma orderBy_fold_In x l acc :
  In x (fold_left (fun acc m => insert_by_timestamp m acc) l acc)
  <-> In x l \/ In x acc.
Proof.
  revert acc. induction l as [|y r IH]; intros acc; simpl.
  - intuition.
  - rewrite IH, In_insert_by_timestamp. intuition.
Qed.

Lemma orderBy_fold_count f l acc :
  List.length (filter f (fold_left (fun acc m => insert_by_timestamp m acc) l acc))
  = List.length (filter f l) + List.length (filter f acc).
Proof.
  revert acc. induction l as [|y r IH]; intros acc; simpl; auto.
  rewrite IH, filter_insert_by_timestamp. simpl.
  destruct (f y); simpl; lia.
Qed.

Lemma In_orderBy x l : In x (orderBy_asc_timestamp l) <-> In x l.
Proof. unfold orderBy_asc_timestamp. rewrite orderBy_fold_In. simpl. tauto. Qed.

Lemma count_orderBy f l :
  List.length (filter f (orderBy_asc_timestamp l)) = List.length (filter f l).
Proof. unfold orderBy_asc_timestamp. rewrite orderBy_fold_count. simpl. lia. Qed.

(** ** The reducer of [getAllUsersWithMessages] *)

Lemma group_step_eq st msg :
  group_step st msg =
  match own_get (party msg) (own st) with
  | Some c =>
      mkReduction
        (own_set (party msg) (update_conversation (party msg) msg c) (own st))
        (polluted st)
  | None =>
      if inherited (polluted st) (party msg)
      then mkReduction (own st) (polluted st || (party msg =? "__proto__"))
      else mkReduction
             (own_set (party msg)
                (update_conversation (party msg) msg
                   (mkConversation (party msg) (roomId msg) None 0)) (own st))
             (polluted st)
  end.
Proof.
  unfold group_step, js_get.
  destruct (own_get (party msg) (own st)) as [c|] eqn:G.
  - cbv zeta. now rewrite G.
  - destruct (inherited (polluted st) (party msg)) eqn:I; cbv zeta.
    + now rewrite ?G, ?I.
    + rewrite own_get_set_same. now rewrite own_set_set.
Qed.

Lemma inherited_mono p b k :
  inherited p k = true -> inherited (p || b) k = true.
Proof.
  unfold inherited. rewrite !orb_true_iff, !andb_true_iff, orb_true_iff.
  tauto.
Qed.

Lemma inherited_base p k : inherited p k = false -> inherited false k = false.
Proof.
  unfold inherited. rewrite !orb_false_iff. simpl. tauto.
Qed.

Lemma counts_unread_party k m : counts_unread k m = true -> party m = k.
Proof.
  unfold counts_unread, party. rewrite !andb_true_iff, !String.eqb_eq.
  intros [[Hs Hr] _]. destruct (senderUsername m =? "admin") eqn:E; auto.
  apply String.eqb_eq in E. congruence.
Qed.

Lemma unread_from_snoc k l m :
  unread_from k (l ++ [m]) =
  unread_from k l + (if counts_unread k m then 1 else 0).
Proof.
  unfold unread_from. rewrite filter_app, length_app. simpl.
  now destruct (counts_unread k m).
Qed.

Lemma unread_from_none k l :
  (forall m, In m l -> party m <> k) -> unread_from k l = 0.
Proof.
  unfold unread_from. induction l as [|x r IH]; simpl; auto.
  intros H. destruct (counts_unread k x) eqn:E.
  - apply counts_unread_party in E. exfalso. apply (H x); auto.
  - apply IH. intros m Hm. apply H. now right.
Qed.

Lemma not_later_refl a : not_later a a.
Proof. destruct a; simpl; auto. apply N.le_refl. Qed.

Lemma unreadCount_update k m c :
  unreadCount (update_conversation k m c) =
  unreadCount c + (if counts_unread k m then 1 else 0).
Proof.
  unfold update_conversation.
  destruct (more_recent m (lastMessage c)), (counts_unread k m); simpl; lia.
Qed.

Lemma lastMessage_update k m c :
  lastMessage (update_conversation k m c) =
  if more_recent m (lastMessage c) then Some m else lastMessage c.
Proof.
  unfold update_conversation.
  destruct (more_recent m (lastMessage c)), (counts_unread k m); reflexivity.
Qed.

Lemma c_username_update k m c :
  c_username (update_conversation k m c) = c_username c.
Proof.
  unfold update_conversation.
  destruct (more_recent m (lastMessage c)), (counts_unread k m); reflexivity.
Qed.

(** The update keeps a latest message of the conversation. *)
Lemma latest_update l m m0 :
  is_latest_of (party m) l m0 ->
  exists m1,
    (if more_recent m (Some m0) then Some m else Some m0) = Some m1
    /\ is_latest_of (party m) (l ++ [m]) m1.
Proof.
  intros [Hin [Hp Hmax]].
  assert (Hkeep : (forall m', In m' l -> party m' = party m ->
                     not_later (timestamp m') (timestamp m)) ->
                  is_latest_of (party m) (l ++ [m]) m).
  { intros H. split; [apply in_elt|]. split; auto.
    intros m' Hm' Hp'. apply in_app_iff in Hm'.
    destruct Hm' as [Hm'|[<-|[]]]; auto. apply not_later_refl. }
  assert (Hold : not_later (timestamp m) (timestamp m0) ->
                 is_latest_of (party m) (l ++ [m]) m0).
  { intros H. split; [apply in_app_iff; now left|]. split; auto.
    intros m' Hm' Hp'. apply in_app_iff in Hm'.
    destruct Hm' as [Hm'|[<-|[]]]; auto. }
  unfold more_recent, timestamp_gtb.
  destruct (timestamp m) as [t|] eqn:Tm.
  - destruct (timestamp m0) as [t0|] eqn:T0.
    + destruct (t0 <? t)%N eqn:L.
      * apply N.ltb_lt in L. exists m. split; auto. apply Hkeep.
        intros m' Hm' Hp'. specialize (Hmax m' Hm' Hp').
        destruct (timestamp m'); simpl in *; auto. lia.
      * apply N.ltb_ge in L. exists m0. split; auto.
    + exists m. split; auto. apply Hkeep.
      intros m' Hm' Hp'. specialize (Hmax m' Hm' Hp').
      destruct (timestamp m'); simpl in *; tauto.
  - exists m0. split; auto. apply Hold. exact I.
Qed.

Lemma group_inv_step l st m :
  group_inv l st -> group_inv (l ++ [m]) (group_step st m).
Proof.
  intros [Hnd Hinv]. rewrite group_step_eq.
  assert (Hother : forall k b,
             k <> party m ->
             match own_get k (own st) with
             | Some c => entry_ok (l ++ [m]) k c
             | None => inherited (polluted st || b) k = true
                       \/ forall m', In m' (l ++ [m]) -> party m' <> k
             end).
  { intros k b Hk. specialize (Hinv k).
    destruct (own_get k (own st)) as [c|].
    - destruct Hinv as [Hu [Hi [Hc [m0 [Hl [Hin [Hp Hmax]]]]]]].
      repeat split; auto.
      + rewrite unread_from_snoc, Hc.
        destruct (counts_unread k m) eqn:E; [|lia].
        apply counts_unread_party in E. congruence.
      + exists m0. split; auto. split; [apply in_app_iff; now left|].
        split; auto. intros m' Hm' Hp'. apply in_app_iff in Hm'.
        destruct Hm' as [Hm'|[<-|[]]]; auto. congruence.
    - destruct Hinv as [Hi|Hn]; [left; now apply inherited_mono|]. right.
      intros m' Hm'. apply in_app_iff in Hm'.
      destruct Hm' as [Hm'|[<-|[]]]; auto. }
  assert (Hsame : forall k,
             k <> party m ->
             match own_get k (own st) with
             | Some c => entry_ok (l ++ [m]) k c
             | None => inherited (polluted st) k = true
                       \/ forall m', In m' (l ++ [m]) -> party m' <> k
             end).
  { intros k Hk. generalize (Hother k false Hk).
    now rewrite orb_false_r. }
  generalize (Hinv (party m)).
  destruct (own_get (party m) (own st)) as [c|] eqn:G.
  - intros [Hu [Hi [Hc [m0 [Hl Hlat]]]]].
    split; simpl; [now apply NoDup_own_set|].
    intros k. destruct (string_dec k (party m)) as [->|Hk].
    + rewrite own_get_set_same. repeat split; auto.
      * now rewrite c_username_update.
      * rewrite unreadCount_update, unread_from_snoc. lia.
      * rewrite lastMessage_update, Hl. now apply latest_update.
    + rewrite own_get_set_other by exact Hk. now apply Hsame.
  - intros Hnone. destruct (inherited (polluted st) (party m)) eqn:I.
    + split; simpl; auto.
      intros k. destruct (string_dec k (party m)) as [->|Hk].
      * rewrite G. left. now apply inherited_mono.
      * now apply Hother.
    + destruct Hnone as [Hi|Hn]; [congruence|].
      split; simpl; [now apply NoDup_own_set|].
      intros k. destruct (string_dec k (party m)) as [->|Hk].
      * rewrite own_get_set_same. repeat split; auto.
        -- now rewrite c_username_update.
        -- now apply inherited_base in I.
        -- rewrite unreadCount_update, unread_from_snoc.
           rewrite (unread_from_none _ _ Hn). reflexivity.
        -- rewrite lastMessage_update. simpl. exists m. split; auto.
           split; [apply in_elt|]. split; auto.
           intros m' Hm' Hp'. apply in_app_iff in Hm'.
           destruct Hm' as [Hm'|[<-|[]]].
           ++ now apply Hn in Hm'.
           ++ apply not_later_refl.
      * rewrite own_get_set_other by exact Hk. now apply Hsame.
Qed.

Lemma group_inv_fold l l0 st :
  group_inv l0 st -> group_inv (l0 ++ l) (fold_left group_step l st).
Proof.
  revert l0 st. induction l as [|m r IH]; intros l0 st H; simpl.
  - now rewrite app_nil_r.
  - replace (l0 ++ m :: r)%list with ((l0 ++ [m]) ++ r)%list
      by (rewrite <- app_assoc; reflexivity).
    apply IH. now apply group_inv_step.
Qed.

Lemma group_inv_grouped p l : group_inv l (grouped p l).
Proof.
  apply (group_inv_fold l [] (mkReduction [] p)). split; [constructor|].
  intros k. simpl. right. intros m [].
Qed.

(** The flag only ever goes up, and only a ["__proto__"] party raises it. *)
Lemma polluted_fold l st :
  polluted (fold_left group_step l st) = true ->
  polluted st = true \/ exists m, In m l /\ party m = "__proto__".
Proof.
  revert st. induction l as [|m r IH]; intros st; simpl; auto.
  intros H. apply IH in H. destruct H as [H|[m' [Hin Hp]]].
  - rewrite group_step_eq in H.
    destruct (own_get (party m) (own st)); simpl in H; auto.
    destruct (inherited (polluted st) (party m)); simpl in H; auto.
    apply orb_true_iff in H. destruct H as [H|H]; auto.
    apply String.eqb_eq in H. right. exists m. auto.
  - right. exists m'. auto.
Qed.

Lemma counts_unread_with_admin k m :
  counts_unread k m = true -> with_admin m = true.
Proof.
  unfold counts_unread, with_admin. rewrite !andb_true_iff, orb_true_iff.
  tauto.
Qed.

Lemma unread_from_filter_with_admin k l :
  unread_from k (filter with_admin l) = unread_from k l.
Proof.
  unfold unread_from. induction l as [|x r IH]; simpl; auto.
  destruct (with_admin x) eqn:W; simpl.
  - destruct (counts_unread k x); simpl; auto.
  - destruct (counts_unread k x) eqn:C; simpl; auto.
    apply counts_unread_with_admin in C. congruence.
Qed.

Lemma unread_from_admin_messages k d :
  unread_from k (admin_messages d) = unread_from k (messages d).
Proof.
  unfold admin_messages, unread_from. rewrite count_orderBy.
  apply unread_from_filter_with_admin.
Qed.

Lemma In_admin_messages m d :
  In m (admin_messages d) <-> In m (messages d) /\ with_admin m = true.
Proof. unfold admin_messages. rewrite In_orderBy. apply filter_In. Qed.

(** Every entry of the projection is the own property stored under its
    username. *)
Lemma projection_own p d c :
  In c (getAllUsersWithMessages p d) ->
  own_get (c_username c) (own (grouped p (admin_messages d))) = Some c.
Proof.
  unfold getAllUsersWithMessages. rewrite In_Object_values. intros [k Hin].
  destruct (group_inv_grouped p (admin_messages d)) as [Hnd Hinv].
  apply (In_own_get _ _ _ Hnd) in Hin.
  specialize (Hinv k). rewrite Hin in Hinv.
  destruct Hinv as [Hu _]. now rewrite Hu.
Qed.

(** What the code computes for each entry it returns. *)
Lemma projection_entry p d c :
  In c (getAllUsersWithMessages p d) ->
  inherited false (c_username c) = false
  /\ unreadCount c = unread_from (c_username c) (messages d)
  /\ exists m,
       lastMessage c = Some m
       /\ In m (messages d) /\ with_admin m = true /\ party m = c_username c
       /\ forall m', In m' (messages d) -> with_admin m' = true ->
                     party m' = c_username c ->
                     not_later (timestamp m') (timestamp m).
Proof.
  intros Hin. apply projection_own in Hin.
  destruct (group_inv_grouped p (admin_messages d)) as [_ Hinv].
  specialize (Hinv (c_username c)). rewrite Hin in Hinv.
  destruct Hinv as [_ [Hi [Hc [m [Hl [Hm [Hp Hmax]]]]]]].
  split; auto. split; [now rewrite <- unread_from_admin_messages|].
  exists m. apply In_admin_messages in Hm. destruct Hm as [Hm Hw].
  repeat split; auto.
  intros m' Hm' Hw' Hp'. apply Hmax; auto. now apply In_admin_messages.
Qed.

Lemma inherited_other p k :
  k <> "lastMessage" -> inherited p k = inherited false k.
Proof.
  intros Hk. unfold inherited. apply String.eqb_neq in Hk. rewrite Hk.
  now rewrite !andb_false_r.
Qed.

(** Which usernames have an entry: the parties of the selected rows whose
    name is not one every object inherits.  (The name ["lastMessage"] is
    left out: whether it has an entry depends on the state of
    [Object.prototype].) *)
Lemma projection_usernames p d k :
  k <> "lastMessage" ->
  (exists c, In c (getAllUsersWithMessages p d) /\ c_username c = k)
  <-> inherited false k = false
      /\ exists m, In m (messages d) /\ with_admin m = true /\ party m = k.
Proof.
  intros Hk.
  destruct (group_inv_grouped p (admin_messages d)) as [Hnd Hinv].
  split.
  - intros [c [Hin <-]]. destruct (projection_entry _ _ _ Hin)
      as [Hi [_ [m [_ [Hm [Hw [Hp _]]]]]]].
    split; auto. now exists m.
  - intros [Hi [m [Hm [Hw Hp]]]]. specialize (Hinv k).
    destruct (own_get k (own (grouped p (admin_messages d)))) as [c|] eqn:G.
    + exists c. destruct Hinv as [Hu _]. split; auto.
      unfold getAllUsersWithMessages. apply In_Object_values.
      exists k. now apply own_get_In.
    + destruct Hinv as [Hi'|Hn].
      * rewrite (inherited_other _ _ Hk) in Hi'. congruence.
      * exfalso. apply (Hn m); auto. now apply In_admin_messages.
Qed.

(** ** Marking as read *)

Lemma unread_from_marked roomId' k l :
  (forall m, In m l -> senderUsername m = k -> receiverUsername m = "admin" ->
             roomId m = roomId') ->
  unread_from k
    (map (fun m =>
       if (roomId m =? roomId') && (receiverUsername m =? "admin")
       then set_isRead m else m) l) = 0.
Proof.
  unfold unread_from. induction l as [|x r IH]; auto.
  intros H.
  assert (IH' := IH (fun m Hm => H m (or_intror Hm))).
  cbn [map filter].
  destruct ((roomId x =? roomId') && (receiverUsername x =? "admin")) eqn:E.
  - replace (counts_unread k (set_isRead x)) with false; auto.
    unfold counts_unread. simpl. now rewrite andb_false_r.
  - destruct (counts_unread k x) eqn:C; auto.
    exfalso. unfold counts_unread in C.
    rewrite !andb_true_iff, !String.eqb_eq in C. destruct C as [[Hs Hr] _].
    assert (Hroom : roomId x = roomId') by (apply H; simpl; auto).
    apply andb_false_iff in E. rewrite !String.eqb_neq in E. tauto.
Qed.

Lemma markMessagesAsRead_idempotent roomId' reader d :
  markMessagesAsRead roomId' reader (markMessagesAsRead roomId' reader d)
  = markMessagesAsRead roomId' reader d.
Proof.
  unfold markMessagesAsRead, with_messages. simpl. f_equal.
  rewrite map_map. apply map_ext. intros m.
  destruct ((roomId m =? roomId') && (receiverUsername m =? reader)) eqn:E;
    simpl; now rewrite E.
Qed.

Lemma markAsRead_run ws roomId' e srv reader :
  Map_get ws (connections srv) = Some reader ->
  db_fails e 0 = false ->
  handle (on_message ws (markAsRead roomId')) e srv =
  (Returned tt,
   mkServer (connections srv)
            (markMessagesAsRead roomId' (username reader) (db srv)),
   []).
Proof.
  intros Hget Hup. unfold handle, on_message, catch, case_markAsRead.
  unfold bind, get_connections. simpl. rewrite Hget.
  unfold update, await. simpl. now rewrite Hup.
Qed.

(** C6 (as amended).  [markMessagesAsRead roomId reader] sets [isRead] on
    exactly the messages of that room addressed to the reader, whoever
    sent them, and changes nothing else: every other message (those the
    reader sent to someone else, those of other rooms) is kept as it is,
    as are the other columns and the other tables. *)
Theorem markMessagesAsRead_effect roomId' reader d :
  let d' := markMessagesAsRead roomId' reader d in
  Forall2
    (fun m m' =>
       (roomId m = roomId' /\ receiverUsername m = reader -> marked_read m m')
       /\ (~ (roomId m = roomId' /\ receiverUsername m = reader) -> m' = m))
    (messages d) (messages d')
  /\ users d' = users d
  /\ onlineUsers d' = onlineUsers d
  /\ helpRequests d' = helpRequests d.
Proof.
  intros d'. subst d'. unfold markMessagesAsRead. simpl.
  split; [|repeat split].
  induction (messages d) as [|m l IH]; simpl; constructor; auto.
  destruct ((roomId m =? roomId') && (receiverUsername m =? reader)) eqn:E.
  - split; [intros _; unfold marked_read; simpl; tauto|].
    apply andb_true_iff in E. rewrite !String.eqb_eq in E. tauto.
  - split; auto. intros [H1 H2].
    apply andb_false_iff in E. rewrite !String.eqb_neq in E. tauto.
Qed.

(** C6, counterexample: the admin's note to ["admin"] in room
    ["admin"] is a message the reader sent, and marking the room as read
    as that reader changes its [isRead]. *)
Lemma own_message_marked_read :
  let before := messages (db admin_wrote_note) in
  let after' :=
    messages (db (after [(0, markAsRead "admin", env_at 3000)] admin_wrote_note)) in
  Map_get 0 (connections admin_wrote_note) = Some admin_info
  /\ map senderUsername before = [username admin_info]
  /\ map isRead before = [false]
  /\ map isRead after' = [true].
Proof. vm_compute. repeat split. Qed.

(** C7 (as amended).  Handling [markAsRead] twice in a row on a registered
    connection, with a database that executes the statement, leaves the
    server after the second call as after the first, and neither call
    logs an error or sends anything.  When the reader's username is
    ["admin"], after each call every conversation of the projection whose
    user sent all their messages to ["admin"] under that room id has
    [unreadCount] 0. *)
Theorem markAsRead_twice ws roomId' e1 e2 srv reader :
  Map_get ws (connections srv) = Some reader ->
  db_fails e1 0 = false ->
  db_fails e2 0 = false ->
  let r1 := handle (on_message ws (markAsRead roomId')) e1 srv in
  let r2 := handle (on_message ws (markAsRead roomId')) e2 (server_of r1) in
  server_of r2 = server_of r1
  /\ outcome_of r1 = Returned tt /\ effects_of r1 = []
  /\ outcome_of r2 = Returned tt /\ effects_of r2 = []
  /\ (username reader = "admin" ->
      room_shows_read roomId' (db srv) (db (server_of r1))
      /\ room_shows_read roomId' (db srv) (db (server_of r2))).
Proof.
  intros Hget Hup1 Hup2 r1 r2.
  set (srv1 := mkServer (connections srv)
                 (markMessagesAsRead roomId' (username reader) (db srv))).
  assert (E1 : r1 = (Returned tt, srv1, []))
    by (now apply markAsRead_run).
  assert (E2 : r2 = (Returned tt, srv1, [])).
  { subst r2. rewrite E1. unfold server_of. simpl fst. simpl snd.
    rewrite (markAsRead_run ws roomId' e2 srv1 reader Hget Hup2).
    unfold srv1. simpl. now rewrite markMessagesAsRead_idempotent. }
  rewrite E1, E2. unfold server_of, outcome_of, effects_of. simpl.
  do 5 (split; [reflexivity|]).
  intros Hadmin. rewrite Hadmin.
  assert (Hread : room_shows_read roomId' (db srv)
                    (markMessagesAsRead roomId' "admin" (db srv))).
  { intros p c Hin Hroom.
    destruct (projection_entry _ _ _ Hin) as [_ [Hc _]].
    rewrite Hc. unfold markMessagesAsRead. simpl.
    now apply unread_from_marked. }
  split; exact Hread.
Qed.

Lemma markAsRead_twice_witness :
  let admin_reads :=
    after [(1, join "admin" true "admin", env_at 2500)] alice_said_hello in
  let r1 := handle (on_message 1 (markAsRead "alice")) (env_at 3000) admin_reads in
  map unreadCount (getAllUsersWithMessages false (db admin_reads)) = [1]
  /\ room_shows_read "alice" (db admin_reads) (db (server_of r1)).
Proof.
  intros admin_reads r1. split; [reflexivity|].
  refine (proj1 (proj2 (proj2 (proj2 (proj2 (proj2
    (markAsRead_twice 1 "alice" (env_at 3000) (env_at 4000) admin_reads
       admin_info _ _ _))))) _)); reflexivity.
Defined.

(** C7, counterexample, for a reader other than ["admin"]:
    alice's hello is unread; alice marks her room as read, twice; the
    projection still counts one unread message for that room. *)
Lemma markAsRead_by_user_keeps_unreadCount :
  let twice :=
    after [(0, markAsRead "alice", env_at 3000);
           (0, markAsRead "alice", env_at 4000)] alice_said_hello in
  Map_get 0 (connections alice_said_hello) = Some alice_info
  /\ map (fun c => (c_username c, c_roomId c, unreadCount c))
         (getAllUsersWithMessages false (db twice))
     = [("alice", "alice", 1)].
Proof. vm_compute. repeat split. Qed.

(** C4, the code at the failing input: the user named ["constructor"] has
    one unread message to ["admin"] in the store, and the projection has
    no entry at all. *)
Theorem constructor_has_no_conversation :
  map (fun m => (senderUsername m, receiverUsername m, isRead m))
      (messages (db constructor_said_hello))
  = [("constructor", "admin", false)]
  /\ (forall polluted0,
        getAllUsersWithMessages polluted0 (db constructor_said_hello) = []).
Proof. vm_compute. repeat split. Qed.

(** An exchange of ["admin"] with ["admin"] yields an entry named
    ["admin"]. *)
Remark admin_note_has_a_conversation :
  map c_username (getAllUsersWithMessages false (db admin_wrote_note))
  = ["admin"].
Proof. reflexivity. Qed.

(** ** One entry per username *)

Lemma Permutation_insert_by_index {A} (p : string * A) l :
  Permutation (insert_by_index p l) (p :: l).
Proof.
  induction l as [|x r IH]; simpl; auto.
  destruct (index_leb (fst x) (fst p)); auto.
  rewrite IH. apply perm_swap.
Qed.

Lemma Permutation_fold_insert_by_index {A} (l acc : JsObject A) :
  Permutation (fold_left (fun acc p => insert_by_index p acc) l acc)
              (l ++ acc).
Proof.
  revert acc. induction l as [|x r IH]; intros acc; simpl; auto.
  rewrite IH, Permutation_insert_by_index. symmetry. apply Permutation_middle.
Qed.

Lemma Permutation_filter_split {A} (f : A -> bool) l :
  Permutation (filter f l ++ filter (fun x => negb (f x)) l) l.
Proof.
  induction l as [|x r IH]; simpl; auto.
  destruct (f x); simpl.
  - now constructor.
  - rewrite <- Permutation_middle. now constructor.
Qed.

Lemma Permutation_own_keys_order {A} (o : JsObject A) :
  Permutation (own_keys_order o) o.
Proof.
  unfold own_keys_order.
  rewrite Permutation_fold_insert_by_index, app_nil_r.
  apply (Permutation_filter_split (fun p => is_array_index (fst p))).
Qed.

(** No two entries of the projection carry the same username. *)
Lemma projection_NoDup p d :
  NoDup (map c_username (getAllUsersWithMessages p d)).
Proof.
  destruct (group_inv_grouped p (admin_messages d)) as [Hnd Hinv].
  unfold getAllUsersWithMessages, Object_values. rewrite map_map.
  assert (E : map (fun x => c_username (snd x))
                  (own_keys_order (own (grouped p (admin_messages d))))
              = map fst (own_keys_order (own (grouped p (admin_messages d))))).
  { apply map_ext_in. intros [k c] Hin. simpl.
    apply (proj1 (In_own_keys_order _ _)) in Hin.
    apply (In_own_get _ _ _ Hnd) in Hin.
    specialize (Hinv k). rewrite Hin in Hinv. now destruct Hinv. }
  rewrite E.
  eapply Permutation_NoDup; [|exact Hnd].
  apply Permutation_map. symmetry. apply Permutation_own_keys_order.
Qed.

(** * Further properties of the server *)

(** ** Tables keep their ids apart *)

Lemma table_wf_snoc {A} (idf : A -> N) seq l x :
  table_wf idf seq l -> idf x = seq ->
  table_wf idf (N.succ seq) (l ++ [x]).
Proof.
  intros [Hf Hn] Hx. split.
  - intros y Hy. apply in_app_iff in Hy. destruct Hy as [Hy|[<-|[]]].
    + specialize (Hf y Hy). lia.
    + lia.
  - rewrite map_app. simpl. apply NoDup_snoc; auto.
    intros Hin. apply in_map_iff in Hin. destruct Hin as [y [Hy Hin]].
    specialize (Hf y Hin). lia.
Qed.

Lemma NoDup_map_filter {A B} (g : A -> B) (f : A -> bool) l :
  NoDup (map g l) -> NoDup (map g (filter f l)).
Proof.
  induction l as [|x r IH]; simpl; auto.
  intros H. inversion H as [|? ? Hn Hr]; subst.
  destruct (f x); simpl; auto. constructor; auto.
  intros Hin. apply Hn. apply in_map_iff in Hin.
  destruct Hin as [y [Hy Hin]]. apply filter_In in Hin.
  apply in_map_iff. exists y. tauto.
Qed.

Lemma table_wf_filter {A} (idf : A -> N) seq (f : A -> bool) l :
  table_wf idf seq l -> table_wf idf seq (filter f l).
Proof.
  intros [Hf Hn]. split.
  - intros y Hy. apply filter_In in Hy. now apply Hf.
  - now apply NoDup_map_filter.
Qed.

Lemma table_wf_map {A} (idf : A -> N) seq (g : A -> A) l :
  (forall x, idf (g x) = idf x) ->
  table_wf idf seq l -> table_wf idf seq (map g l).
Proof.
  intros Hg [Hf Hn]. split.
  - intros y Hy. apply in_map_iff in Hy. destruct Hy as [x [<- Hx]].
    rewrite Hg. now apply Hf.
  - rewrite map_map. erewrite map_ext; [exact Hn|]. intros x. apply Hg.
Qed.

Lemma getUserByUsername_None username' d :
  getUserByUsername username' d = None ->
  ~ In username' (map user_username (users d)).
Proof.
  unfold getUserByUsername. intros H Hin.
  apply in_map_iff in Hin. destruct Hin as [u [Hu Hin]].
  apply (find_none _ _ H) in Hin. simpl in Hin.
  apply String.eqb_neq in Hin. congruence.
Qed.

Ltac split_db_wf :=
  unfold db_wf; simpl; split; [|split; [|split; [|split]]]; auto.

Lemma createUser_wf now v d u d' :
  createUser now v d = Some (u, d') -> db_wf d -> db_wf d'.
Proof.
  unfold createUser.
  destruct (getUserByUsername (iu_username v) d) eqn:G; [discriminate|].
  intros H. injection H as <- <-.
  intros [Hu [Hn [Hm [Ho Hh]]]]. split_db_wf.
  - now apply table_wf_snoc.
  - rewrite map_app. simpl. apply NoDup_snoc; auto.
    now apply getUserByUsername_None.
Qed.

Lemma createMessage_wf now v d : db_wf d -> db_wf (snd (createMessage now v d)).
Proof.
  intros [Hu [Hn [Hm [Ho Hh]]]]. split_db_wf. now apply table_wf_snoc.
Qed.

Lemma addOnlineUser_wf now v d : db_wf d -> db_wf (snd (addOnlineUser now v d)).
Proof.
  intros [Hu [Hn [Hm [Ho Hh]]]]. split_db_wf. now apply table_wf_snoc.
Qed.

Lemma createHelpRequest_wf now v d :
  db_wf d -> db_wf (snd (createHelpRequest now v d)).
Proof.
  intros [Hu [Hn [Hm [Ho Hh]]]]. split_db_wf. now apply table_wf_snoc.
Qed.

Lemma removeOnlineUser_wf socketId d : db_wf d -> db_wf (removeOnlineUser socketId d).
Proof.
  intros [Hu [Hn [Hm [Ho Hh]]]]. split_db_wf. now apply table_wf_filter.
Qed.

Lemma markMessagesAsRead_wf roomId' reader d :
  db_wf d -> db_wf (markMessagesAsRead roomId' reader d).
Proof.
  intros [Hu [Hn [Hm [Ho Hh]]]]. split_db_wf.
  apply table_wf_map; auto. intros x.
  now destruct ((roomId x =? roomId') && (receiverUsername x =? reader)).
Qed.

Lemma updateHelpRequestStatus_wf id' status d :
  db_wf d -> db_wf (updateHelpRequestStatus id' status d).
Proof.
  intros [Hu [Hn [Hm [Ho Hh]]]]. split_db_wf.
  apply table_wf_map; auto. intros x. now destruct (hr_id x =? id')%N.
Qed.

(** ** What the handlers keep *)

Lemma keeps_get_connections : keeps_connections get_connections.
Proof. now intros e s. Qed.

Lemma keeps_parsed {A} (x : option A) : keeps_connections (parsed x).
Proof. destruct x; [apply keeps_ret | apply keeps_throw]. Qed.

Lemma keeps_catch {A} (h k : Handler A) :
  keeps_connections h -> keeps_connections k -> keeps_connections (catch h k).
Proof.
  intros Hh Hk e s. unfold catch. specialize (Hh e s).
  destruct (h e s) as [[a|] s']; simpl in *; auto. now rewrite Hk.
Qed.

Ltac keeps_more :=
  repeat first
    [ apply keeps_broadcast | apply keeps_get_connections | apply keeps_parsed
    | apply keeps_ret | apply keeps_throw | apply keeps_ask | apply keeps_emit
    | apply keeps_await
    | apply keeps_catch
    | apply keeps_bind; [|intros ?]
    | match goal with |- keeps_connections (match ?x with _ => _ end) =>
        destruct x end
    | match goal with |- keeps_connections (if ?x then _ else _) =>
        destruct x end ].

Section Preserves.

Variable P : Db -> Prop.

Lemma preserves_ret {A} (a : A) : preserves P (ret a).
Proof. now intros e s. Qed.

Lemma preserves_throw {A} : preserves P (@throw A).
Proof. now intros e s. Qed.

Lemma preserves_ask : preserves P ask.
Proof. now intros e s. Qed.

Lemma preserves_emit x : preserves P (emit x).
Proof. now intros e s. Qed.

Lemma preserves_get_connections : preserves P get_connections.
Proof. now intros e s. Qed.

Lemma preserves_put_connections m : preserves P (put_connections m).
Proof. now intros e s. Qed.

Lemma preserves_parsed {A} (x : option A) : preserves P (parsed x).
Proof. destruct x; [apply preserves_ret | apply preserves_throw]. Qed.

Lemma preserves_await {A} (f : Timestamp -> Db -> option (A * Db)) :
  (forall now d a d', f now d = Some (a, d') -> P d -> P d') ->
  preserves P (await f).
Proof.
  intros Hf e s H. unfold await.
  destruct (db_fails e (statements s)); auto.
  destruct (f (db_now e) (db (server s))) as [[a d']|] eqn:F; simpl; auto.
  eapply Hf; eauto.
Qed.

Lemma preserves_query {A} (f : Db -> A) : preserves P (query f).
Proof.
  apply preserves_await. intros now d a d' H. now injection H as _ <-.
Qed.

Lemma preserves_bind {A B} (m : Handler A) (k : A -> Handler B) :
  preserves P m -> (forall a, preserves P (k a)) -> preserves P (bind m k).
Proof.
  intros Hm Hk e s H. unfold bind. specialize (Hm e s H).
  destruct (m e s) as [[a|] s']; simpl in *; auto. now apply Hk.
Qed.

Lemma preserves_catch {A} (h k : Handler A) :
  preserves P h -> preserves P k -> preserves P (catch h k).
Proof.
  intros Hh Hk e s H. unfold catch. specialize (Hh e s H).
  destruct (h e s) as [[a|] s']; simpl in *; auto.
Qed.

Lemma preserves_broadcast test f : preserves P (broadcast test f).
Proof. intros e s H. now rewrite broadcast_run. Qed.

End Preserves.

Ltac preserving :=
  repeat first
    [ apply preserves_broadcast | apply preserves_get_connections
    | apply preserves_put_connections | apply preserves_parsed
    | apply preserves_ret | apply preserves_throw | apply preserves_ask
    | apply preserves_emit | apply preserves_query
    | apply preserves_catch
    | apply preserves_bind; [|intros ?]
    | match goal with |- preserves _ (match ?x with _ => _ end) =>
        destruct x end
    | match goal with |- preserves _ (if ?x then _ else _) =>
        destruct x end ].

Lemma Some_pair_snd {A B} (p : A * B) a b : Some p = Some (a, b) -> b = snd p.
Proof. intros H. injection H as ->. reflexivity. Qed.

Lemma preserves_wf_on_message ws ev : preserves db_wf (on_message ws ev).
Proof.
  unfold on_message. apply preserves_catch; [|apply preserves_emit].
  destruct ev; unfold case_join, case_message, case_typing, case_markAsRead,
    storage_createMessage, ws_send, insert, update; preserving.
  all: apply preserves_await; intros now d x d' H.
  - exact (createUser_wf _ _ _ _ _ H).
  - apply Some_pair_snd in H. subst d'. apply addOnlineUser_wf.
  - apply Some_pair_snd in H. subst d'. apply createMessage_wf.
  - apply Some_pair_snd in H. subst d'. apply markMessagesAsRead_wf.
Qed.

Lemma preserves_wf_on_close ws : preserves db_wf (on_close ws).
Proof.
  unfold on_close, update. preserving.
  apply preserves_await. intros now d x d' H.
  apply Some_pair_snd in H. subst d'. apply removeOnlineUser_wf.
Qed.

Lemma preserves_wf_post_help_requests body :
  preserves db_wf (post_help_requests body).
Proof.
  unfold post_help_requests, storage_createHelpRequest, insert. preserving.
  apply preserves_await. intros now d x d' H.
  apply Some_pair_snd in H. subst d'. apply createHelpRequest_wf.
Qed.

Lemma preserves_wf_post_users body : preserves db_wf (post_users body).
Proof.
  unfold post_users. preserving.
  apply preserves_await. intros now d x d' H.
  exact (createUser_wf _ _ _ _ _ H).
Qed.

Lemma handle_server {A} (h : Handler A) e srv :
  server_of (handle h e srv) = server (snd (h e (mkRun srv [] 0))).
Proof.
  unfold handle, server_of. now destruct (h e (mkRun srv [] 0)) as [r s].
Qed.

Lemma handle_effects {A} (h : Handler A) e srv :
  effects_of (handle h e srv) = trace (snd (h e (mkRun srv [] 0))).
Proof.
  unfold handle, effects_of. now destruct (h e (mkRun srv [] 0)) as [r s].
Qed.

Lemma handle_outcome {A} (h : Handler A) e srv :
  outcome_of (handle h e srv) = fst (h e (mkRun srv [] 0)).
Proof.
  unfold handle, outcome_of. now destruct (h e (mkRun srv [] 0)) as [r s].
Qed.

Lemma on_message_connections ws ev e srv :
  connections (server_of (handle (on_message ws ev) e srv)) =
  match ev with
  | join username' isAdmin' roomId' =>
      Map_set ws (mkInfo username' isAdmin' roomId') (connections srv)
  | _ => connections srv
  end.
Proof.
  destruct ev; try apply on_message_join_connections.
  all: rewrite handle_server;
    match goal with
    | |- connections (server (snd (?h _ _))) = _ =>
        assert (K : keeps_connections h);
        [unfold on_message, case_message, case_typing, case_markAsRead,
           storage_createMessage, insert, update; keeps_more
        | now rewrite K]
    end.
Qed.

Lemma on_close_unregistered ws e srv :
  Map_get ws (connections srv) = None ->
  handle (on_close ws) e srv = (Returned tt, srv, []).
Proof.
  intros Hget. unfold handle, on_close, bind, get_connections. simpl.
  rewrite Hget. unfold ret. now destruct srv.
Qed.

Lemma on_close_connections ws e srv :
  connections (server_of (handle (on_close ws) e srv)) =
  match Map_get ws (connections srv) with
  | Some _ =>
      if db_fails e 0 then connections srv
      else Map_delete ws (connections srv)
  | None => connections srv
  end.
Proof.
  destruct (Map_get ws (connections srv)) as [info|] eqn:Hget.
  - rewrite (on_close_run _ _ _ _ Hget). now destruct (db_fails e 0).
  - now rewrite (on_close_unregistered _ _ _ Hget).
Qed.

(** X1.  Every handler keeps the server well formed: the registry holds
    each connection at most once, every table holds each [serial] id at
    most once and below its sequence, and usernames in [users] stay
    unique. *)
Theorem handlers_keep_server_wf e srv :
  server_wf srv ->
  (forall ws ev, server_wf (server_of (handle (on_message ws ev) e srv)))
  /\ (forall ws, server_wf (server_of (handle (on_close ws) e srv)))
  /\ (forall body, server_wf (server_of (handle (post_help_requests body) e srv)))
  /\ (forall body, server_wf (server_of (handle (post_users body) e srv))).
Proof.
  intros [Hc Hd]. split; [|split; [|split]]; intros x; split.
  - rewrite on_message_connections. destruct ev; auto. now apply NoDup_Map_set.
  - rewrite handle_server. now apply preserves_wf_on_message.
  - rewrite on_close_connections.
    destruct (Map_get x (connections srv)); auto.
    destruct (db_fails e 0); auto. now apply NoDup_Map_delete.
  - rewrite handle_server. now apply preserves_wf_on_close.
  - rewrite handle_server.
    assert (K : keeps_connections (post_help_requests x))
      by (unfold post_help_requests, storage_createHelpRequest, insert;
          keeps_more).
    now rewrite K.
  - rewrite handle_server. now apply preserves_wf_post_help_requests.
  - rewrite handle_server.
    assert (K : keeps_connections (post_users x))
      by (unfold post_users; keeps_more).
    now rewrite K.
  - rewrite handle_server. now apply preserves_wf_post_users.
Qed.

Lemma emptyServer_wf : server_wf emptyServer.
Proof.
  split; [constructor|]. unfold db_wf, table_wf, fresh_ids. simpl.
  repeat split; try constructor; intros x [].
Qed.

Lemma handlers_keep_server_wf_witness :
  server_wf alice_joined.
Proof.
  exact (proj1 (handlers_keep_server_wf (env_at 1000) emptyServer emptyServer_wf)
               0 (join "alice" false "alice")).
Defined.

Lemma on_message_wf ws ev e srv :
  server_wf srv -> server_wf (server_of (handle (on_message ws ev) e srv)).
Proof.
  intros [Hc Hd]. split.
  - rewrite on_message_connections. destruct ev; auto. now apply NoDup_Map_set.
  - rewrite handle_server. now apply preserves_wf_on_message.
Qed.

Lemma alice_joined_wf : server_wf alice_joined.
Proof. apply on_message_wf, emptyServer_wf. Qed.

(** ** Events that are dropped *)



(** X3.  A [message] event from a registered connection that lacks
    [roomId] or [message], or comes from an admin and lacks
    [targetUsername], fails validation: nothing is stored or sent, the
    server is unchanged (the connection stays registered) and the error is
    logged.  A frame that is not JSON is treated the same way. *)
Theorem invalid_message_is_rejected ws messageData e srv sender :
  Map_get ws (connections srv) = Some sender ->
  md_roomId messageData = None
  \/ md_message messageData = None
  \/ (isAdmin sender = true /\ md_targetUsername messageData = None) ->
  handle (on_message ws (message_event messageData)) e srv
  = (Returned tt, srv, [ConsoleError])
  /\ handle (on_message ws malformed) e srv = (Returned tt, srv, [ConsoleError]).
Proof.
  intros Hget Hbad. split.
  - rewrite (message_event_run _ _ _ _ _ Hget).
    unfold insertMessageSchema_parse.
    destruct Hbad as [-> | [-> | [-> ->]]]; auto.
    + destruct (md_roomId messageData); auto.
      now destruct (if isAdmin sender then _ else _).
    + now destruct (md_roomId messageData).
  - unfold handle, on_message, catch, throw, emit. simpl. now destruct srv.
Qed.

Lemma invalid_message_is_rejected_witness :
  handle (on_message 1 (message_event no_target)) (env_at 1000) alice_and_admin
  = (Returned tt, alice_and_admin, [ConsoleError]).
Proof.
  apply (invalid_message_is_rejected 1 no_target (env_at 1000) alice_and_admin
           admin_info); [reflexivity|].
  right. right. split; reflexivity.
Defined.

(** ** What a stored message looks like and where it is found again *)

(** X4.  The row a [message] event stores takes its id from the sequence
    and its timestamp from the database clock, is unread, carries the
    room id and the text of the event, and is appended to [messages]; no
    other table changes. *)
Theorem stored_row_contents ws messageData e srv sender msg :
  Map_get ws (connections srv) = Some sender ->
  In (Stored msg)
     (effects_of (handle (on_message ws (message_event messageData)) e srv)) ->
  let d' := db (server_of (handle (on_message ws (message_event messageData)) e srv)) in
  id msg = messages_seq (db srv)
  /\ timestamp msg = Some (db_now e)
  /\ isRead msg = false
  /\ md_roomId messageData = Some (roomId msg)
  /\ md_message messageData = Some (message msg)
  /\ messages d' = (messages (db srv) ++ [msg])%list
  /\ messages_seq d' = N.succ (messages_seq (db srv))
  /\ users d' = users (db srv)
  /\ onlineUsers d' = onlineUsers (db srv)
  /\ helpRequests d' = helpRequests (db srv).
Proof.
  intros Hget Hin d'. subst d'.
  destruct (message_event_stored _ _ _ _ _ _ Hget Hin) as [v [Hp [Hf Hm]]].
  rewrite (message_event_run _ _ _ _ _ Hget), Hp, Hf. subst msg.
  unfold server_of. simpl.
  unfold insertMessageSchema_parse in Hp.
  destruct (md_roomId messageData) as [r|]; [|discriminate].
  destruct (if isAdmin sender then md_targetUsername messageData else Some "admin")
    as [t|]; [|discriminate].
  destruct (md_message messageData) as [b|]; [|discriminate].
  injection Hp as <-. simpl. repeat split.
Qed.

Lemma stored_row_contents_witness :
  id hello_row = 1%N /\ timestamp hello_row = Some 1000%N
  /\ isRead hello_row = false.
Proof.
  destruct (stored_row_contents 0 hello (env_at 1000) alice_and_admin
              alice_info hello_row) as [H1 [H2 [H3 _]]].
  - reflexivity.
  - vm_compute. left. reflexivity.
  - repeat split; assumption.
Defined.

Lemma filter_none {A} (f : A -> bool) l :
  (forall x, In x l -> f x = false) -> filter f l = [].
Proof.
  induction l as [|x r IH]; simpl; auto. intros H.
  rewrite (H x) by now left. apply IH. intros y Hy. apply H. now right.
Qed.

(** A fresh row is found exactly once by any query that selects it. *)
Lemma fresh_row_found_once (sel : Message -> bool) seq l msg :
  table_wf id seq l -> id msg = seq -> sel msg = true ->
  filter (fun m => (id m =? id msg)%N)
         (orderBy_asc_timestamp (filter sel (l ++ [msg])))
  = [msg].
Proof.
  intros [Hf _] Hid Hsel.
  set (g := fun m => (id m =? id msg)%N).
  assert (Hold : forall x, In x l -> g x = false).
  { intros x Hx. unfold g. apply N.eqb_neq. specialize (Hf x Hx). lia. }
  assert (Hlen : List.length (filter g (orderBy_asc_timestamp
                                          (filter sel (l ++ [msg])))) = 1).
  { rewrite count_orderBy, filter_app, filter_app. simpl. rewrite Hsel. simpl.
    rewrite (filter_none g (filter sel l))
      by (intros x Hx; apply filter_In in Hx; now apply Hold).
    unfold g. now rewrite N.eqb_refl. }
  assert (Hall : forall x,
             In x (filter g (orderBy_asc_timestamp (filter sel (l ++ [msg])))) ->
             x = msg).
  { intros x Hx. apply filter_In in Hx. destruct Hx as [Hx Hg].
    apply In_orderBy, filter_In in Hx. destruct Hx as [Hx _].
    apply in_app_iff in Hx. destruct Hx as [Hx|[Hx|[]]]; auto.
    rewrite (Hold x Hx) in Hg. discriminate. }
  destruct (filter g (orderBy_asc_timestamp (filter sel (l ++ [msg]))))
    as [|x [|y r]]; try discriminate.
  f_equal. apply Hall. now left.
Qed.

Lemma stored_is_appended ws messageData e srv sender msg :
  Map_get ws (connections srv) = Some sender ->
  In (Stored msg)
     (effects_of (handle (on_message ws (message_event messageData)) e srv)) ->
  id msg = messages_seq (db srv)
  /\ messages (db (server_of
                     (handle (on_message ws (message_event messageData)) e srv)))
     = (messages (db srv) ++ [msg])%list.
Proof.
  intros Hget Hin.
  destruct (message_event_stored _ _ _ _ _ _ Hget Hin) as [v [Hp [Hf Hm]]].
  rewrite (message_event_run _ _ _ _ _ Hget), Hp, Hf. subst msg.
  unfold server_of. simpl. split; reflexivity.
Qed.

(** X5.  Round trip: on a well-formed server, the message a [message]
    event stored is afterwards returned exactly once, unchanged, by
    [getMessagesBetweenUsers] for its sender and receiver (in either
    order) and by [getMessagesByRoom] for its room. *)
Theorem stored_message_round_trip ws messageData e srv sender msg :
  server_wf srv ->
  Map_get ws (connections srv) = Some sender ->
  In (Stored msg)
     (effects_of (handle (on_message ws (message_event messageData)) e srv)) ->
  let d' := db (server_of (handle (on_message ws (message_event messageData)) e srv)) in
  let same_id := fun m => (id m =? id msg)%N in
  filter same_id
    (getMessagesBetweenUsers (senderUsername msg) (receiverUsername msg) d') = [msg]
  /\ filter same_id
       (getMessagesBetweenUsers (receiverUsername msg) (senderUsername msg) d') = [msg]
  /\ filter same_id (getMessagesByRoom (roomId msg) d') = [msg].
Proof.
  intros [_ [_ [_ [Hm _]]]] Hget Hin d' same_id.
  destruct (stored_is_appended _ _ _ _ _ _ Hget Hin) as [Hid Hms].
  subst d' same_id. unfold getMessagesBetweenUsers, getMessagesByRoom.
  rewrite Hms.
  repeat split; apply (fresh_row_found_once _ (messages_seq (db srv))); auto.
  - now rewrite !String.eqb_refl.
  - rewrite !String.eqb_refl. apply orb_true_r.
  - apply String.eqb_refl.
Qed.

Lemma stored_message_round_trip_witness :
  filter (fun m => (id m =? 1)%N)
         (getMessagesBetweenUsers "alice" "admin" (db alice_said_hello))
  = [mkMessage 1 "alice" "alice" "admin" "hello" (Some 2000%N) false].
Proof.
  refine (proj1 (stored_message_round_trip 0 hello (env_at 2000) alice_joined
                   alice_info
                   (mkMessage 1 "alice" "alice" "admin" "hello" (Some 2000%N) false)
                   _ _ _)).
  - exact alice_joined_wf.
  - reflexivity.
  - vm_compute. left. reflexivity.
Defined.

(** ** Joining *)

Lemma existsb_snoc {A} (f : A -> bool) l x :
  f x = true -> existsb f (l ++ [x]) = true.
Proof. intros H. rewrite existsb_app. simpl. rewrite H. apply orb_true_r. Qed.

(** X6.  With a working database, a [join] appends one presence row (its
    socket id is the username, a dash and the clock reading), after which
    the username is online; it creates the user record with the declared
    role only when the username has none, and leaves an existing record
    as it is, whatever role the join declares.  Messages and help
    requests are untouched. *)
Theorem join_records_presence_and_user ws username' isAdmin' roomId' e srv :
  (forall k, db_fails e k = false) ->
  let d := db srv in
  let d' := db (server_of (handle (on_message ws (join username' isAdmin' roomId'))
                                  e srv)) in
  onlineUsers d' =
    (onlineUsers d ++
     [mkOnlineUser (onlineUsers_seq d) username' roomId'
        (socketId_of username' (Date_now e)) (Some (db_now e)) isAdmin'])%list
  /\ isOnline username' d' = true
  /\ users d' =
     match getUserByUsername username' d with
     | Some _ => users d
     | None =>
         (users d ++ [mkUser (users_seq d) username' isAdmin' (Some (db_now e))])%list
     end
  /\ messages d' = messages d
  /\ helpRequests d' = helpRequests d.
Proof.
  intros Hup d d'. subst d d'. rewrite (join_run _ _ _ _ _ _ Hup).
  unfold server_of, joined_db, with_user, createUser, isOnline. simpl.
  rewrite orb_false_r.
  destruct (getUserByUsername username' (db srv)); simpl;
    repeat split; auto; apply existsb_snoc; apply String.eqb_refl.
Qed.

Lemma join_records_presence_and_user_witness :
  isOnline "alice" (db alice_joined) = true.
Proof.
  exact (proj1 (proj2 (join_records_presence_and_user 0 "alice" false "alice"
                         (env_at 1000) emptyServer (fun _ => eq_refl)))).
Defined.

Lemma received_cons_send target ws f t :
  received target (Send ws f :: t) =
  ((if Nat.eqb ws target then [f] else []) ++ received target t)%list.
Proof. reflexivity. Qed.

Lemma registered_open_set_other test e ws info m target :
  target <> ws ->
  registered_open test e (Map_set ws info m) target
  = registered_open test e m target.
Proof.
  intros H. unfold registered_open. now rewrite Map_get_set_other.
Qed.

(** X7.  With a working database, a joining admin is sent exactly one
    [adminJoined] frame (the projection and the presence list as stored
    after the join) and nobody else is sent anything; a joining user is
    sent exactly one [userJoined] frame with their history with ["admin"],
    every other open admin connection is sent exactly one [newUser] frame,
    and nobody else is sent anything. *)
Theorem join_frames ws username' isAdmin' roomId' e srv target :
  NoDup (keys (connections srv)) ->
  (forall k, db_fails e k = false) ->
  let r := handle (on_message ws (join username' isAdmin' roomId')) e srv in
  let d' := db (server_of r) in
  received target (effects_of r) =
  if isAdmin' then
    if Nat.eqb ws target
    then [adminJoined
            (getAllUsersWithMessages (Object_prototype_lastMessage e) d')
            (getAllOnlineUsers d')]
    else []
  else
    if Nat.eqb ws target
    then [userJoined (getMessagesBetweenUsers username' "admin" d') roomId']
    else if registered_open isAdmin e (connections srv) target
         then [newUser username' roomId' true]
         else [].
Proof.
  intros Hnd Hup r d'. subst d' r. rewrite (join_run _ _ _ _ _ _ Hup).
  unfold effects_of, server_of. simpl fst. simpl snd. cbv zeta.
  destruct isAdmin'.
  - rewrite received_cons_send. simpl.
    destruct (Nat.eqb ws target); reflexivity.
  - rewrite received_cons_send.
    rewrite received_registered_open by now apply NoDup_Map_set.
    destruct (Nat.eqb ws target) eqn:E.
    + apply Nat.eqb_eq in E. subst target.
      unfold registered_open. rewrite Map_get_set_same. reflexivity.
    + apply Nat.eqb_neq in E.
      rewrite registered_open_set_other by congruence. reflexivity.
Qed.

Lemma join_frames_witness :
  received 1
    (effects_of (handle (on_message 5 (join "bob" false "bob")) (env_at 3000)
                        alice_and_admin))
  = [newUser "bob" "bob" true].
Proof.
  refine (join_frames 5 "bob" false "bob" (env_at 3000) alice_and_admin 1 _ _).
  - simpl. repeat constructor; simpl; intuition discriminate.
  - reflexivity.
Defined.

(** ** Leaving *)

Lemma Map_get_delete_same ws m : Map_get ws (Map_delete ws m) = None.
Proof.
  unfold Map_delete. induction m as [|[k x] r IH]; simpl; auto.
  destruct (Nat.eqb k ws) eqn:E; simpl; auto. now rewrite E.
Qed.

Lemma Map_get_delete_other ws ws' m :
  ws' <> ws -> Map_get ws' (Map_delete ws m) = Map_get ws' m.
Proof.
  intros Hne. unfold Map_delete. induction m as [|[k x] r IH]; simpl; auto.
  destruct (Nat.eqb k ws) eqn:E; simpl.
  - apply Nat.eqb_eq in E. subst k.
    destruct (Nat.eqb ws ws') eqn:E'; auto.
    apply Nat.eqb_eq in E'. congruence.
  - now rewrite IH.
Qed.

(** X8.  When a registered connection closes and the presence delete is
    executed, the connection is removed from the registry and every other
    binding is kept; if the closer was a user, every open admin connection
    is sent exactly one [userLeft] frame with the closer's username and
    room, and nobody else is sent anything; if the closer was an admin,
    nobody is sent anything. *)
Theorem close_unregisters_and_notifies ws e srv info :
  NoDup (keys (connections srv)) ->
  Map_get ws (connections srv) = Some info ->
  db_fails e 0 = false ->
  let r := handle (on_close ws) e srv in
  outcome_of r = Returned tt
  /\ Map_get ws (connections (server_of r)) = None
  /\ (forall ws', ws' <> ws ->
        Map_get ws' (connections (server_of r)) = Map_get ws' (connections srv))
  /\ (forall target,
        received target (effects_of r) =
        if negb (isAdmin info) && registered_open isAdmin e (connections srv) target
        then [userLeft (username info) (info_roomId info)]
        else []).
Proof.
  intros Hnd Hget Hup r. subst r.
  rewrite (on_close_run _ _ _ _ Hget), Hup.
  unfold outcome_of, server_of, effects_of. simpl.
  split; [reflexivity|]. split; [apply Map_get_delete_same|].
  split; [intros ws' H; now apply Map_get_delete_other|].
  intros target. destruct (negb (isAdmin info)); simpl; auto.
  now apply received_registered_open.
Qed.

Lemma close_unregisters_and_notifies_witness :
  received 1 (effects_of (handle (on_close 0) (env_at 5000) alice_and_admin))
  = [userLeft "alice" "alice"].
Proof.
  destruct (close_unregisters_and_notifies 0 (env_at 5000) alice_and_admin
              alice_info) as [_ [_ [_ H]]].
  - simpl. repeat constructor; simpl; intuition discriminate.
  - reflexivity.
  - reflexivity.
  - exact (H 1).
Defined.

(** X9.  When the presence delete of a closing connection fails, the
    close handler stops there: the connection stays in the registry, the
    database is unchanged and no [userLeft] frame is sent. *)
Theorem failed_close_keeps_registration ws e srv info :
  Map_get ws (connections srv) = Some info ->
  db_fails e 0 = true ->
  let r := handle (on_close ws) e srv in
  outcome_of r = Thrown
  /\ server_of r = srv
  /\ effects_of r = []
  /\ Map_get ws (connections (server_of r)) = Some info.
Proof.
  intros Hget Hdown r. subst r. rewrite (on_close_run _ _ _ _ Hget), Hdown.
  unfold outcome_of, server_of, effects_of. simpl. auto.
Qed.

Lemma failed_close_keeps_registration_witness :
  let e := mkEnv 5000%N 5000%N all_open (fun _ => true) false in
  Map_get 0 (connections (server_of (handle (on_close 0) e alice_and_admin)))
  = Some alice_info.
Proof.
  intros e.
  apply (failed_close_keeps_registration 0 e alice_and_admin alice_info);
    reflexivity.
Defined.

(** X10.  The presence row a [join] wrote is removed by the close of that
    connection exactly when the clock reads the same millisecond at the
    close as it did at the join; after a close at any other time the row
    is still stored and the username is still online. *)
Theorem presence_removed_only_in_same_millisecond
  ws username' isAdmin' roomId' e1 e2 srv :
  (forall k, db_fails e1 k = false) ->
  db_fails e2 0 = false ->
  let row :=
    mkOnlineUser (onlineUsers_seq (db srv)) username' roomId'
      (socketId_of username' (Date_now e1)) (Some (db_now e1)) isAdmin' in
  let s1 := server_of (handle (on_message ws (join username' isAdmin' roomId')) e1 srv) in
  let s2 := server_of (handle (on_close ws) e2 s1) in
  In row (onlineUsers (db s1))
  /\ (In row (onlineUsers (db s2)) <-> Date_now e2 <> Date_now e1)
  /\ (Date_now e2 <> Date_now e1 -> isOnline username' (db s2) = true).
Proof.
  intros Hup1 Hup2 row s1 s2.
  assert (Hget : Map_get ws (connections s1) = Some (mkInfo username' isAdmin' roomId')).
  { unfold s1. rewrite on_message_join_connections. apply Map_get_set_same. }
  assert (Hrow : In row (onlineUsers (db s1))).
  { unfold s1. rewrite (join_run _ _ _ _ _ _ Hup1).
    unfold server_of, joined_db. simpl. rewrite orb_false_r.
    replace (onlineUsers_seq (with_user (db_now e1) username' isAdmin' (db srv)))
      with (onlineUsers_seq (db srv)).
    - apply in_elt.
    - unfold with_user, createUser.
      now destruct (getUserByUsername _ _). }
  split; [exact Hrow|].
  assert (Hkeep : Date_now e2 <> Date_now e1 -> In row (onlineUsers (db s2))).
  { intros Hne. unfold s2.
    apply (close_keeps_presence ws e2 s1 _ (Date_now e1) row Hget Hrow);
      [reflexivity|congruence]. }
  split; [split; auto|].
  - intros Hin Heq.
    apply (close_same_millisecond ws e2 s1 _ row Hget Hup2); auto.
    simpl. now rewrite Heq.
  - intros Hne. unfold isOnline. apply existsb_exists.
    exists row. split; auto. apply String.eqb_refl.
Qed.

Lemma presence_removed_only_in_same_millisecond_witness :
  isOnline "alice"
    (db (server_of (handle (on_close 0) (env_at 2000) alice_joined))) = true.
Proof.
  refine (proj2 (proj2 (presence_removed_only_in_same_millisecond 0 "alice"
                          false "alice" (env_at 1000) (env_at 2000) emptyServer
                          _ _)) _).
  - reflexivity.
  - reflexivity.
  - discriminate.
Defined.

(** ** Presence rows in storage *)

Lemma filter_all {A} (f : A -> bool) l :
  (forall x, In x l -> f x = true) -> filter f l = l.
Proof.
  induction l as [|x r IH]; simpl; auto. intros H.
  rewrite (H x) by now left. f_equal. apply IH. intros y Hy. apply H. now right.
Qed.

Lemma find_snoc_fresh {A} (f : A -> bool) l x :
  (forall y, In y l -> f y = false) -> f x = true ->
  find f (l ++ [x]) = Some x.
Proof.
  induction l as [|y r IH]; simpl; intros Hl Hx.
  - now rewrite Hx.
  - rewrite (Hl y) by now left. apply IH; auto.
Qed.

(** X11.  Storage round trip for presence: after [addOnlineUser] with a
    socket id no stored row carries, [getUserBySocketId] returns the new
    row, [removeOnlineUser] with that socket id restores the table, and
    [removeOnlineUser] with a socket id no row carries changes nothing. *)
Theorem presence_add_remove now v d :
  (forall o, In o (onlineUsers d) -> ou_socketId o <> io_socketId v) ->
  let row := fst (addOnlineUser now v d) in
  let d' := snd (addOnlineUser now v d) in
  getUserBySocketId (io_socketId v) d' = Some row
  /\ onlineUsers (removeOnlineUser (io_socketId v) d') = onlineUsers d
  /\ removeOnlineUser (io_socketId v) d = d
  /\ ou_username row = io_username v /\ ou_roomId row = io_roomId v
  /\ ou_isAdmin row = io_isAdmin v.
Proof.
  intros Hfresh row d'. subst row d'.
  assert (Hneq : forall o, In o (onlineUsers d) ->
                   negb (ou_socketId o =? io_socketId v) = true).
  { intros o Ho. apply negb_true_iff, String.eqb_neq. now apply Hfresh. }
  unfold getUserBySocketId, removeOnlineUser, with_onlineUsers. simpl.
  split; [|split; [|split]]; auto.
  - apply find_snoc_fresh; simpl; [|apply String.eqb_refl].
    intros o Ho. apply String.eqb_neq. now apply Hfresh.
  - rewrite filter_app. simpl. rewrite String.eqb_refl. simpl.
    rewrite app_nil_r. now apply filter_all.
  - rewrite filter_all by exact Hneq. now destruct d.
Qed.

Lemma presence_add_remove_witness :
  getUserBySocketId "alice-1000"
    (snd (addOnlineUser 1000%N
            (mkInsertOnlineUser "alice" "alice" "alice-1000" false) emptyDb))
  = Some (mkOnlineUser 1 "alice" "alice" "alice-1000" (Some 1000%N) false).
Proof.
  refine (proj1 (presence_add_remove 1000%N
                   (mkInsertOnlineUser "alice" "alice" "alice-1000" false)
                   emptyDb _)).
  intros o [].
Defined.

(** ** The conversation projection *)

(** X12.  Every entry [getAllUsersWithMessages] returns has as
    [unreadCount] the number of stored messages sent by its username to
    ["admin"] and not read, and as [lastMessage] a stored message
    exchanged between ["admin"] and its username than which none of that
    pair is later. *)
Theorem conversation_entry_is_accurate polluted0 d c :
  In c (getAllUsersWithMessages polluted0 d) ->
  unreadCount c = unread_from (c_username c) (messages d)
  /\ exists m,
       lastMessage c = Some m
       /\ In m (messages d) /\ with_admin m = true /\ party m = c_username c
       /\ forall m', In m' (messages d) -> with_admin m' = true ->
                     party m' = c_username c ->
                     not_later (timestamp m') (timestamp m).
Proof. intros Hin. exact (proj2 (projection_entry _ _ _ Hin)). Qed.

Lemma conversation_entry_is_accurate_witness :
  unreadCount
    (mkConversation "alice" "alice"
       (Some (mkMessage 1 "alice" "alice" "admin" "hello" (Some 2000%N) false)) 1)
  = unread_from "alice" (messages (db alice_said_hello)).
Proof.
  refine (proj1 (conversation_entry_is_accurate false (db alice_said_hello)
                   (mkConversation "alice" "alice"
                      (Some (mkMessage 1 "alice" "alice" "admin" "hello"
                                       (Some 2000%N) false)) 1) _)).
  vm_compute. left. reflexivity.
Defined.

(** X13.  A username other than ["lastMessage"] has an entry in the
    projection exactly when some stored message with ["admin"] as sender
    or receiver has it as the other party and it is not the name of a
    member of [Object.prototype]; and no two entries carry the same
    username. *)
Theorem conversation_entries_are_the_parties polluted0 d k :
  k <> "lastMessage" ->
  ((exists c, In c (getAllUsersWithMessages polluted0 d) /\ c_username c = k)
   <-> inherited false k = false
       /\ exists m, In m (messages d) /\ with_admin m = true /\ party m = k)
  /\ NoDup (map c_username (getAllUsersWithMessages polluted0 d)).
Proof.
  intros Hk. split.
  - now apply projection_usernames.
  - apply projection_NoDup.
Qed.

Lemma conversation_entries_are_the_parties_witness :
  exists c, In c (getAllUsersWithMessages false (db alice_said_hello))
            /\ c_username c = "alice".
Proof.
  apply (proj1 (conversation_entries_are_the_parties false
                  (db alice_said_hello) "alice" ltac:(discriminate))).
  split; [reflexivity|].
  exists (mkMessage 1 "alice" "alice" "admin" "hello" (Some 2000%N) false).
  repeat split. vm_compute. left. reflexivity.
Defined.

(** ** How the unread counts move *)

Lemma unread_from_stored k l msg :
  isRead msg = false ->
  unread_from k (l ++ [msg]) =
  unread_from k l
  + (if (senderUsername msg =? k) && (receiverUsername msg =? "admin")
     then 1 else 0).
Proof.
  intros Hr. rewrite unread_from_snoc. unfold counts_unread.
  rewrite Hr. simpl. now rewrite andb_true_r.
Qed.

(** X14.  A stored message from a user raises that user's unread count by
    exactly one (so their entry in the projection shows one more) and
    leaves every other user's count as it was; a stored message from an
    admin to anyone but ["admin"] leaves every count as it was. *)
Theorem unread_count_after_message ws messageData e srv sender msg :
  Map_get ws (connections srv) = Some sender ->
  In (Stored msg)
     (effects_of (handle (on_message ws (message_event messageData)) e srv)) ->
  let d := db srv in
  let d' := db (server_of (handle (on_message ws (message_event messageData)) e srv)) in
  (isAdmin sender = false ->
     unread_from (username sender) (messages d')
     = S (unread_from (username sender) (messages d))
     /\ (forall k, k <> username sender ->
           unread_from k (messages d') = unread_from k (messages d))
     /\ (forall polluted0 c,
           In c (getAllUsersWithMessages polluted0 d') ->
           c_username c = username sender ->
           unreadCount c = S (unread_from (username sender) (messages d))))
  /\ (isAdmin sender = true ->
      md_targetUsername messageData <> Some "admin" ->
      forall k, unread_from k (messages d') = unread_from k (messages d)).
Proof.
  intros Hget Hin d d'. subst d d'.
  destruct (stored_is_appended _ _ _ _ _ _ Hget Hin) as [_ Hms].
  destruct (message_event_stored _ _ _ _ _ _ Hget Hin) as [v [Hp [_ Hm]]].
  assert (Hread : isRead msg = false) by now subst msg.
  assert (Hs : senderUsername msg = username sender /\
               Some (receiverUsername msg)
               = (if isAdmin sender then md_targetUsername messageData
                  else Some "admin")).
  { subst msg. unfold insertMessageSchema_parse in Hp.
    destruct (md_roomId messageData); [|discriminate].
    destruct (if isAdmin sender then _ else _); [|discriminate].
    destruct (md_message messageData); [|discriminate].
    injection Hp as <-. simpl. auto. }
  destruct Hs as [Hsn Hrc]. rewrite Hms. split.
  - intros Hu. rewrite Hu in Hrc. injection Hrc as Hrc.
    assert (Hme : unread_from (username sender) (messages (db srv) ++ [msg])
                  = S (unread_from (username sender) (messages (db srv)))).
    { rewrite (unread_from_stored _ _ _ Hread), Hsn, Hrc, !String.eqb_refl.
      simpl. lia. }
    split; [exact Hme|]. split.
    + intros k Hk. rewrite (unread_from_stored _ _ _ Hread), Hsn.
      replace (username sender =? k) with false; [simpl; lia|].
      symmetry. apply String.eqb_neq. congruence.
    + intros p c Hc Hname.
      destruct (projection_entry _ _ _ Hc) as [_ [Hcount _]].
      now rewrite Hcount, Hname, Hms.
  - intros Ha Ht k. rewrite Ha in Hrc.
    rewrite (unread_from_stored _ _ _ Hread).
    replace (receiverUsername msg =? "admin") with false;
      [rewrite andb_false_r; lia|].
    symmetry. apply String.eqb_neq. congruence.
Qed.

Lemma unread_count_after_message_witness :
  unread_from "alice" (messages (db alice_said_hello)) = 1.
Proof.
  refine (proj1 (proj1 (unread_count_after_message 0 hello (env_at 2000)
                          alice_joined alice_info
                          (mkMessage 1 "alice" "alice" "admin" "hello"
                                     (Some 2000%N) false) _ _) _)).
  - reflexivity.
  - vm_compute. left. reflexivity.
  - reflexivity.
Defined.

(** X15.  Marking as read never turns a read message unread, keeps the
    number of stored messages, and never raises any user's unread count. *)
Theorem marking_only_lowers_unread roomId' reader d :
  let d' := markMessagesAsRead roomId' reader d in
  List.length (messages d') = List.length (messages d)
  /\ Forall2 (fun m m' => isRead m = true -> isRead m' = true)
             (messages d) (messages d')
  /\ forall k, unread_from k (messages d') <= unread_from k (messages d).
Proof.
  intros d'. subst d'. unfold markMessagesAsRead. simpl.
  split; [apply length_map|]. split.
  - induction (messages d) as [|m l IH]; simpl; constructor; auto.
    now destruct ((roomId m =? roomId') && (receiverUsername m =? reader)).
  - intros k. unfold unread_from.
    induction (messages d) as [|m l IH]; simpl; auto.
    destruct ((roomId m =? roomId') && (receiverUsername m =? reader)).
    + replace (counts_unread k (set_isRead m)) with false.
      * destruct (counts_unread k m); simpl; lia.
      * unfold counts_unread. simpl. now rewrite andb_false_r.
    + destruct (counts_unread k m); simpl; lia.
Qed.

(** ** The history queries *)

Lemma Sorted_insert_by_timestamp m l :
  Sorted by_timestamp l ->
  Sorted by_timestamp (insert_by_timestamp m l).
Proof.
  induction 1 as [|x r Hs IH Hh]; simpl.
  - repeat constructor.
  - destruct (timestamp_leb (timestamp x) (timestamp m)) eqn:E.
    + constructor; auto.
      destruct r as [|y r']; simpl.
      * constructor. exact E.
      * inversion Hh; subst.
        destruct (timestamp_leb (timestamp y) (timestamp m));
          constructor; auto.
    + constructor; [constructor; auto|]. constructor.
      unfold by_timestamp.
      destruct (timestamp x), (timestamp m); simpl in *; auto;
        try discriminate.
      apply N.leb_gt in E. apply N.leb_le. lia.
Qed.

Lemma Sorted_orderBy l : Sorted by_timestamp (orderBy_asc_timestamp l).
Proof.
  unfold orderBy_asc_timestamp.
  assert (H : forall acc, Sorted by_timestamp acc ->
                Sorted by_timestamp
                  (fold_left (fun acc m => insert_by_timestamp m acc) l acc)).
  { induction l as [|m r IH]; intros acc Hacc; simpl; auto.
    apply IH. now apply Sorted_insert_by_timestamp. }
  apply H. constructor.
Qed.

Lemma length_orderBy l :
  List.length (orderBy_asc_timestamp l) = List.length l.
Proof.
  assert (H : forall x : list Message, filter (fun _ => true) x = x)
    by (intros x; now apply filter_all).
  rewrite <- (H (orderBy_asc_timestamp l)), count_orderBy. now rewrite H.
Qed.

(** X16.  [getMessagesByRoom] returns exactly the stored messages of the
    room, and [getMessagesBetweenUsers] exactly those sent by one of the
    two users to the other, whichever order the users are given in; both
    return them in non-decreasing timestamp order (rows without a
    timestamp last), and the room query returns as many rows as the room
    has. *)
Theorem history_queries roomId' user1 user2 d :
  (forall m, In m (getMessagesByRoom roomId' d)
             <-> In m (messages d) /\ roomId m = roomId')
  /\ (forall m, In m (getMessagesBetweenUsers user1 user2 d)
                <-> In m (messages d)
                    /\ ((senderUsername m = user1 /\ receiverUsername m = user2)
                        \/ (senderUsername m = user2 /\ receiverUsername m = user1)))
  /\ getMessagesBetweenUsers user2 user1 d = getMessagesBetweenUsers user1 user2 d
  /\ Sorted by_timestamp (getMessagesByRoom roomId' d)
  /\ Sorted by_timestamp (getMessagesBetweenUsers user1 user2 d)
  /\ List.length (getMessagesByRoom roomId' d)
     = List.length (filter (fun m => roomId m =? roomId') (messages d)).
Proof.
  unfold getMessagesByRoom, getMessagesBetweenUsers.
  split; [|split; [|split; [|split; [|split]]]].
  - intros m. rewrite In_orderBy, filter_In, String.eqb_eq. tauto.
  - intros m. rewrite In_orderBy, filter_In, orb_true_iff, !andb_true_iff,
      !String.eqb_eq. tauto.
  - f_equal. apply filter_ext. intros m. apply orb_comm.
  - apply Sorted_orderBy.
  - apply Sorted_orderBy.
  - apply length_orderBy.
Qed.

(** ** User records *)


Lemma find_snoc_miss {A} (f : A -> bool) l x :
  find f l = None -> find f (l ++ [x]) = if f x then Some x else None.
Proof.
  induction l as [|y r IH]; simpl; auto.
  destruct (f y); [discriminate|auto].
Qed.

Lemma find_snoc_hit {A} (f : A -> bool) l x y :
  find f l = Some y -> find f (l ++ [x]) = Some y.
Proof.
  induction l as [|z r IH]; simpl; [discriminate|].
  destruct (f z); auto.
Qed.


(** ** The read-only endpoints *)



(** ** Help requests in storage *)

(** X19.  [POST /api/help-requests] answers 400, stores nothing and sends
    nothing when the body lacks [username], [roomId] or [message], or when
    the insert fails.  Otherwise the stored row carries the three fields
    of the body, the status of the body or ["pending"] when the body has
    none, the next id of the sequence and the database clock. *)
Theorem help_request_validation body e srv :
  let r := handle (post_help_requests body) e srv in
  match body_username body, body_roomId body, body_message body with
  | Some u, Some room, Some text =>
      if db_fails e 0 then r = (Returned res_status_400, srv, [])
      else
        outcome_of r =
        Returned (res_json
          (mkHelpRequest (helpRequests_seq (db srv)) u room text
             (match body_status body with Some s => s | None => "pending" end)
             (Some (db_now e))))
  | _, _, _ => r = (Returned res_status_400, srv, [])
  end.
Proof.
  intros r. subst r. rewrite post_help_requests_run.
  unfold insertHelpRequestSchema_parse.
  destruct (body_username body) as [u|]; auto.
  destruct (body_roomId body) as [room|]; auto.
  destruct (body_message body) as [text|]; auto.
  destruct (db_fails e 0); auto.
Qed.

Lemma In_insert_by_createdAt h x l :
  In x (insert_by_createdAt h l) <-> x = h \/ In x l.
Proof.
  induction l as [|y r IH]; simpl.
  - intuition.
  - destruct (createdAt_geb (hr_createdAt y) (hr_createdAt h)); simpl;
      rewrite ?IH; intuition.
Qed.

Lemma In_orderBy_desc x l : In x (orderBy_desc_createdAt l) <-> In x l.
Proof.
  unfold orderBy_desc_createdAt.
  assert (H : forall acc,
             In x (fold_left (fun acc h => insert_by_createdAt h acc) l acc)
             <-> In x l \/ In x acc).
  { induction l as [|y r IH]; intros acc; simpl.
    - intuition.
    - rewrite IH, In_insert_by_createdAt. intuition. }
  rewrite H. simpl. tauto.
Qed.

Lemma Sorted_insert_by_createdAt h l :
  Sorted by_createdAt_desc l ->
  Sorted by_createdAt_desc (insert_by_createdAt h l).
Proof.
  induction 1 as [|x r Hs IH Hh]; simpl.
  - repeat constructor.
  - destruct (createdAt_geb (hr_createdAt x) (hr_createdAt h)) eqn:E.
    + constructor; auto.
      destruct r as [|y r']; simpl.
      * constructor. exact E.
      * inversion Hh; subst.
        destruct (createdAt_geb (hr_createdAt y) (hr_createdAt h));
          constructor; auto.
    + constructor; [constructor; auto|]. constructor.
      unfold by_createdAt_desc.
      destruct (hr_createdAt x), (hr_createdAt h); simpl in *; auto;
        try discriminate.
      apply N.leb_gt in E. apply N.leb_le. lia.
Qed.

Lemma Sorted_orderBy_desc l : Sorted by_createdAt_desc (orderBy_desc_createdAt l).
Proof.
  unfold orderBy_desc_createdAt.
  assert (H : forall acc, Sorted by_createdAt_desc acc ->
                Sorted by_createdAt_desc
                  (fold_left (fun acc h => insert_by_createdAt h acc) l acc)).
  { induction l as [|h r IH]; intros acc Hacc; simpl; auto.
    apply IH. now apply Sorted_insert_by_createdAt. }
  apply H. constructor.
Qed.

Lemma updateHelpRequestStatus_idempotent id' status d :
  updateHelpRequestStatus id' status (updateHelpRequestStatus id' status d)
  = updateHelpRequestStatus id' status d.
Proof.
  unfold updateHelpRequestStatus. simpl. f_equal.
  rewrite map_map. apply map_ext. intros h.
  destruct (hr_id h =? id')%N eqn:E; simpl; now rewrite E.
Qed.

(** X20.  On a well-formed database, [updateHelpRequestStatus] with the id
    of a request just created rewrites the status of that request only:
    the table is the old rows, untouched, followed by the new row with the
    new status and its other columns as created.  [getHelpRequests] then
    lists that row, and lists exactly the stored rows, latest first. *)
Theorem help_request_status_round_trip now v status d :
  db_wf d ->
  let row := fst (createHelpRequest now v d) in
  let d1 := snd (createHelpRequest now v d) in
  let d2 := updateHelpRequestStatus (hr_id row) status d1 in
  helpRequests d2 = (helpRequests d ++ [set_status status row])%list
  /\ In (set_status status row) (getHelpRequests d2)
  /\ (forall h, In h (getHelpRequests d2) <-> In h (helpRequests d2))
  /\ Sorted by_createdAt_desc (getHelpRequests d2)
  /\ updateHelpRequestStatus (hr_id row) status d2 = d2.
Proof.
  intros [_ [_ [_ [_ [Hf _]]]]] row d1 d2.
  assert (Hd2 : helpRequests d2 = (helpRequests d ++ [set_status status row])%list).
  { subst d2 d1 row. unfold updateHelpRequestStatus. simpl.
    rewrite map_app. simpl. rewrite N.eqb_refl. f_equal.
    rewrite <- (map_id (helpRequests d)) at 2. apply map_ext_in.
    intros h Hh. specialize (Hf h Hh).
    replace (hr_id h =? helpRequests_seq d)%N with false; auto.
    symmetry. apply N.eqb_neq. lia. }
  split; [exact Hd2|]. split; [|split; [|split]].
  - unfold getHelpRequests. apply In_orderBy_desc. rewrite Hd2. apply in_elt.
  - intros h. unfold getHelpRequests. apply In_orderBy_desc.
  - apply Sorted_orderBy_desc.
  - apply updateHelpRequestStatus_idempotent.
Qed.

Lemma help_request_status_round_trip_witness :
  helpRequests
    (updateHelpRequestStatus 1 "resolved"
       (snd (createHelpRequest 1000%N
               (mkInsertHelpRequest "alice" "alice" "please help" None) emptyDb)))
  = [mkHelpRequest 1 "alice" "alice" "please help" "resolved" (Some 1000%N)].
Proof.
  refine (proj1 (help_request_status_round_trip 1000%N
                   (mkInsertHelpRequest "alice" "alice" "please help" None)
                   "resolved" emptyDb _)).
  exact (proj2 emptyServer_wf).
Defined.

(** * Properties of the dashboard state *)

(** ** Typing indicators *)




(** ** The user list *)

Lemma find_username_None username' (l : list Conversation) :
  find (fun u => c_username u =? username') l = None ->
  ~ In username' (map c_username l).
Proof.
  intros H Hin. apply in_map_iff in Hin. destruct Hin as [c [Hc Hin]].
  apply (find_none _ _ H) in Hin. simpl in Hin.
  apply String.eqb_neq in Hin. congruence.
Qed.




(** ** Arrivals and departures on the dashboard *)

Lemma find_username_snoc username' (l : list Conversation) c :
  c_username c = username' ->
  exists c', find (fun u => c_username u =? username') (l ++ [c]) = Some c'.
Proof.
  intros Hc. destruct (find (fun u => c_username u =? username') l) eqn:F.
  - exists c0. now apply find_snoc_hit.
  - exists c. rewrite (find_snoc_miss _ _ _ F).
    now rewrite Hc, String.eqb_refl.
Qed.

(** X23.  A [newUser] frame adds a zero-state entry (no last message,
    nothing unread) to the user list only if the username has none, never
    alters an entry already there, and has no further effect when
    repeated; a list with one entry per username stays so.  A [userLeft]
    frame removes every entry of that username from the online list, also
    one a [newUser] frame just added, and keeps the entries of all other
    usernames. *)
Theorem dashboard_arrivals_and_departures clock username' roomId' users0 online0 :
  let users1 := users_on_newUser username' roomId' users0 in
  let online1 := onlineUsers_on_newUser clock username' roomId' online0 in
  (forall c, In c users0 -> In c users1)
  /\ (forall c, In c users1 ->
        In c users0 \/ c = mkConversation username' roomId' None 0)
  /\ In username' (map c_username users1)
  /\ users_on_newUser username' roomId' users1 = users1
  /\ (NoDup (map c_username users0) -> NoDup (map c_username users1))
  /\ (forall o, In o (onlineUsers_on_userLeft username' online1) ->
        ou_username o <> username')
  /\ (forall o, ou_username o <> username' ->
        (In o (onlineUsers_on_userLeft username' online1) <-> In o online0)).
Proof.
  intros users1 online1. subst users1 online1.
  unfold users_on_newUser, onlineUsers_on_newUser, onlineUsers_on_userLeft.
  destruct (find (fun u => c_username u =? username') users0) as [c0|] eqn:F.
  - split; [auto|]. split; [auto|]. split.
    { destruct (find_some _ _ F) as [Hin Hn]. apply String.eqb_eq in Hn.
      apply in_map_iff. now exists c0. }
    split; [now rewrite F|]. split; [auto|].
    split.
    + intros o Ho. apply filter_In in Ho. destruct Ho as [_ Ho].
      now apply negb_true_iff, String.eqb_neq in Ho.
    + intros o Ho. rewrite filter_In.
      apply String.eqb_neq in Ho. rewrite Ho. simpl.
      destruct (find _ online0); [intuition|].
      rewrite in_app_iff. simpl. split; [|intuition].
      intros [[H|[H|[]]] _]; auto. subst o. simpl in Ho.
      rewrite String.eqb_refl in Ho. discriminate.
  - split; [intros c Hc; apply in_app_iff; now left|].
    split; [intros c Hc; apply in_app_iff in Hc;
            destruct Hc as [H|[H|[]]]; auto|].
    split; [rewrite map_app; apply in_app_iff; right; now left|].
    split.
    { destruct (find_username_snoc username' users0
                  (mkConversation username' roomId' None 0) eq_refl) as [c' Hc'].
      now rewrite Hc'. }
    split.
    { intros H. rewrite map_app. simpl. apply NoDup_snoc; auto.
      now apply find_username_None. }
    split.
    + intros o Ho. apply filter_In in Ho. destruct Ho as [_ Ho].
      now apply negb_true_iff, String.eqb_neq in Ho.
    + intros o Ho. rewrite filter_In.
      apply String.eqb_neq in Ho. rewrite Ho. simpl.
      destruct (find _ online0); [intuition|].
      rewrite in_app_iff. simpl. split; [|intuition].
      intros [[H|[H|[]]] _]; auto. subst o. simpl in Ho.
      rewrite String.eqb_refl in Ho. discriminate.
Qed.

(** ** Avatars *)

(** X25.  [getAvatarColor] is undefined for the empty name only: for any
    other name it returns one of the six colours, chosen by the first
    code unit modulo six. *)
Theorem avatar_color_defined name :
  match name with
  | [] => getAvatarColor name = None
  | c :: _ =>
      exists colour,
        getAvatarColor name = Some colour
        /\ In colour avatar_colors
        /\ getAvatarColor name = getAvatarColor [c mod 6]
  end.
Proof.
  destruct name as [|c rest]; [reflexivity|].
  unfold getAvatarColor.
  assert (Hlt : c mod List.length avatar_colors < List.length avatar_colors)
    by (apply Nat.mod_upper_bound; discriminate).
  destruct (nth_error avatar_colors (c mod List.length avatar_colors))
    as [colour|] eqn:E.
  - exists colour. split; [reflexivity|]. split.
    + eapply nth_error_In, E.
    + change (List.length avatar_colors) with 6 in *.
      now rewrite Nat.Div0.mod_mod.
  - apply nth_error_None in E. lia.
Qed.

(** ** The dashboard and the server together *)

Lemma users_on_message_selected_sender s data prev c :
  In c (users_on_message (Some s) data prev) ->
  senderUsername data = s -> c_username c = s -> unreadCount c = 0.
Proof.
  unfold users_on_message. intros Hin Hs Hc.
  destruct (find _ prev) eqn:F.
  - apply in_map_iff in Hin. destruct Hin as [x [Hx Hin]].
    destruct (c_username x =? senderUsername data) eqn:E.
    + subst c. simpl in *. unfold is_selected, eq_field.
      now rewrite Hc, String.eqb_refl.
    + subst c. apply String.eqb_neq in E. congruence.
  - apply in_app_iff in Hin. destruct Hin as [Hin|[Hin|[]]].
    + exfalso. apply (find_username_None _ _ F).
      apply in_map_iff. exists c. split; auto. congruence.
    + subst c. simpl. unfold is_selected, eq_field.
      now rewrite Hs, String.eqb_refl.
Qed.

(** X24.  While the admin has a user's conversation selected, a message
    that user sent under their own room id is shown in the open
    conversation, the dashboard counts nothing unread for that user, and
    the dashboard answers with [markAsRead] for that room; once the server
    has handled it on the connection of the admin named ["admin"], the
    store counts nothing unread for that user either, provided the user's
    earlier messages to ["admin"] carry the same room id. *)
Theorem viewing_admin_reads_at_once
  ws wa messageData e1 e2 clock st srv sender admin msg :
  Map_get ws (connections srv) = Some sender ->
  isAdmin sender = false ->
  username sender <> "" ->
  Map_get wa (connections srv) = Some admin ->
  username admin = "admin" ->
  md_roomId messageData = Some (username sender) ->
  (forall m, In m (messages (db srv)) -> senderUsername m = username sender ->
             receiverUsername m = "admin" -> roomId m = username sender) ->
  In (Stored msg)
     (effects_of (handle (on_message ws (message_event messageData)) e1 srv)) ->
  db_fails e2 0 = false ->
  let s1 := server_of (handle (on_message ws (message_event messageData)) e1 srv) in
  let step :=
    admin_onmessage (Some (username sender)) clock st (message_frame msg) in
  let s2 :=
    server_of (handle (on_message wa (markAsRead (username sender))) e2 s1) in
  snd step = [markAsRead (username sender)]
  /\ st_messages (fst step) = (st_messages st ++ [msg])%list
  /\ (forall c, In c (st_users (fst step)) -> c_username c = username sender ->
                unreadCount c = 0)
  /\ unread_from (username sender) (messages (db s2)) = 0
  /\ (forall polluted0 c,
        In c (getAllUsersWithMessages polluted0 (db s2)) ->
        c_username c = username sender -> unreadCount c = 0).
Proof.
  intros Hget Huser Hname Hgeta Hadmin Hroom Hold Hin Hup s1 step s2.
  destruct (stored_is_appended _ _ _ _ _ _ Hget Hin) as [_ Hms].
  destruct (message_event_stored _ _ _ _ _ _ Hget Hin) as [v [Hp [_ Hm]]].
  assert (Hmsg : senderUsername msg = username sender
                 /\ receiverUsername msg = "admin"
                 /\ roomId msg = username sender).
  { subst msg. unfold insertMessageSchema_parse in Hp.
    rewrite Hroom, Huser in Hp.
    destruct (md_message messageData); [|discriminate].
    injection Hp as <-. simpl. auto. }
  destruct Hmsg as [Hs [Hr Hrm]].
  assert (Hsel : is_selected (Some (username sender)) (senderUsername msg) = true)
    by (unfold is_selected, eq_field; now rewrite Hs, String.eqb_refl).
  assert (Htr : truthy (Some (username sender)) = true)
    by (simpl; now apply negb_true_iff, String.eqb_neq).
  assert (Hunread : unread_from (username sender) (messages (db s2)) = 0).
  { unfold s2.
    assert (Hgeta1 : Map_get wa (connections s1) = Some admin)
      by (unfold s1; now rewrite on_message_connections).
    rewrite (markAsRead_run _ _ _ _ _ Hgeta1 Hup), Hadmin.
    unfold server_of, markMessagesAsRead. simpl.
    apply unread_from_marked. fold s1. unfold s1. rewrite Hms.
    intros m Hm' Hsm Hrcv. apply in_app_iff in Hm'.
    destruct Hm' as [Hm'|[<-|[]]]; auto. }
  subst step. unfold admin_onmessage. cbv zeta. cbn [fst snd].
  rewrite Htr, Hsel, Hr. cbn [andb orb String.eqb st_messages st_users].
  split; [reflexivity|]. split; [reflexivity|]. split; [|split].
  - intros c Hc Hcn.
    now apply (users_on_message_selected_sender (username sender) msg (st_users st)).
  - exact Hunread.
  - intros p c Hc Hcn.
    destruct (projection_entry _ _ _ Hc) as [_ [Hcount _]].
    now rewrite Hcount, Hcn.
Qed.

Lemma viewing_admin_reads_at_once_witness :
  let msg := mkMessage 1 "alice" "alice" "admin" "hello" (Some 1000%N) false in
  snd (admin_onmessage (Some "alice") (clock_at 1001) empty_dashboard
         (message_frame msg))
  = [markAsRead "alice"].
Proof.
  intros msg.
  refine (proj1 (viewing_admin_reads_at_once 0 1 hello (env_at 1000)
                   (env_at 1002) (clock_at 1001) empty_dashboard
                   alice_and_admin alice_info admin_info msg
                   _ _ _ _ _ _ _ _ _)); try reflexivity.
  - discriminate.
  - intros m [].
  - vm_compute. left. reflexivity.
Defined.


Lemma dashboard_arrivals_and_departures_witness :
  NoDup (map c_username
           (users_on_newUser "bob" "bob" [mkConversation "alice" "alice" None 2])).
Proof.
  refine (proj1 (proj2 (proj2 (proj2 (proj2
            (dashboard_arrivals_and_departures (clock_at 1000) "bob" "bob"
               [mkConversation "alice" "alice" None 2] []))))) _).
  simpl. repeat constructor. simpl. tauto.
Defined.
